(** * Calculator operations: arithmetic variants and the operation factory

    A shallow embedding of [app/operations/__init__.py]: the four
    standalone functions [add], [subtract], [multiply], [divide], the
    [Operation] class hierarchy with its [validate_operands] hook, and
    [OperationFactory] with its class-level registry.

    Operands are [decimal.Decimal] values.  Their arithmetic is the one of
    Python's [decimal] module under the default context, which the module
    never changes: 28 significant digits, ROUND_HALF_EVEN, exponents
    between -999999 and 999999, and the signals InvalidOperation,
    DivisionByZero and Overflow trapped (raised as exceptions). *)

From Stdlib Require Import ZArith NArith QArith Qpower Lia Bool Ascii String.
From stdpp Require Import gmap strings.

Local Open Scope Z_scope.

(** ** Exceptions and results *)

(** The signals that the default decimal context traps. *)
Inductive signal : Type :=
| InvalidOperation
| DivisionByZero
| Overflow.

(** Modelled from the spec: [app.exceptions.ValidationError] is imported by
    the module but its declaration is not among the sources; the spec
    describes it as a distinct "invalid input" error kind that carries a
    descriptive message.  [ValueError] and [TypeError] are the built-in
    exceptions; [DecimalException] stands for a trapped decimal signal. *)
Inductive exn : Type :=
| ValidationError (msg : string)
| ValueError (msg : string)
| TypeError (msg : string)
| DecimalException (s : signal).

Inductive exn_kind : Type :=
| KValidationError
| KValueError
| KTypeError
| KDecimalException.

Definition kind_of (e : exn) : exn_kind :=
  match e with
  | ValidationError _ => KValidationError
  | ValueError _ => KValueError
  | TypeError _ => KTypeError
  | DecimalException _ => KDecimalException
  end.

Definition message_of (e : exn) : option string :=
  match e with
  | ValidationError m | ValueError m | TypeError m => Some m
  | DecimalException _ => None
  end.

(** A computation either returns a value or raises. *)
Inductive result (A : Type) : Type :=
| Ok (a : A)
| Raise (e : exn).

Arguments Ok {A} a.
Arguments Raise {A} e.

#[global] Instance result_ret : MRet result := fun _ a => Ok a.
#[global] Instance result_bind : MBind result := fun _ _ f m =>
  match m with
  | Ok a => f a
  | Raise e => Raise e
  end.

Definition raises {A : Type} (r : result A) (k : exn_kind) : Prop :=
  exists e, r = Raise e /\ kind_of e = k.

(** ** Decimal operands

    The operations follow the definitions of the decimal module
    ([__add__], [__sub__], [__mul__], [__truediv__], [__eq__], [_fix],
    [_check_nans]) under the default context.  Context flags, which no
    code of the module reads, are not represented. *)

Module Dec.

(** A decimal is a finite number [(-1)^sign * coef * 10^exp], an infinity,
    or a NaN (quiet or signaling).  The sign and the diagnostic payload of
    a NaN are not represented: no operation used here observes them. *)
Inductive Decimal : Type :=
| Fin (sign : bool) (coef : N) (exp : Z)
| Inf (sign : bool)
| NaN (signaling : bool).

(** The default context. *)
Definition prec : Z := 28.
Definition Emax : Z := 999999.
Definition Emin : Z := -999999.
Definition Etiny : Z := Emin - prec + 1.
Definition Etop : Z := Emax - prec + 1.

Definition pow10 (k : Z) : N := (10 ^ Z.to_N k)%N.

(** Number of digits of a coefficient, [len(self._int)]: 1 for zero. *)
Fixpoint ndigits_aux (fuel : nat) (c : N) : Z :=
  match fuel with
  | O => 1
  | S f => if (c <? 10)%N then 1 else 1 + ndigits_aux f (c / 10)%N
  end.

Definition ndigits (c : N) : Z := ndigits_aux (N.to_nat (N.size c)) c.

(** ROUND_HALF_EVEN: drop the [k] low digits of [c]. *)
Definition round_half_even (c : N) (k : Z) : N :=
  let q := (c / pow10 k)%N in
  let r := (c mod pow10 k)%N in
  if ((pow10 k <? 2 * r) || ((2 * r =? pow10 k) && N.odd q))%N
  then (q + 1)%N else q.

(** [_fix]: round a finite result to the context. *)
Definition _fix (s : bool) (c : N) (e : Z) : result Decimal :=
  if (c =? 0)%N then Ok (Fin s 0 (Z.min (Z.max e Etiny) Emax))
  else
    let exp_min := ndigits c + e - prec in
    if Etop <? exp_min then Raise (DecimalException Overflow)
    else
      let exp_min := Z.max exp_min Etiny in
      if e <? exp_min then
        let '(c1, e1) :=
          if ndigits c + e - exp_min <? 0 then (1%N, exp_min - 1) else (c, e) in
        let coeff := round_half_even c1 (exp_min - e1) in
        let '(coeff, exp_min) :=
          if prec <? ndigits coeff then ((coeff / 10)%N, exp_min + 1)
          else (coeff, exp_min) in
        if Etop <? exp_min then Raise (DecimalException Overflow)
        else Ok (Fin s coeff exp_min)
      else Ok (Fin s c e).

Definition is_snan (d : Decimal) : bool :=
  match d with NaN true => true | _ => false end.

Definition is_nan (d : Decimal) : bool :=
  match d with NaN _ => true | _ => false end.

(** [_check_nans]: a signaling NaN operand raises, a quiet one is the
    result; [None] when neither operand is a NaN. *)
Definition check_nans (a b : Decimal) : option (result Decimal) :=
  if is_snan a || is_snan b then Some (Raise (DecimalException InvalidOperation))
  else if is_nan a || is_nan b then Some (Ok (NaN false))
  else None.

Definition signed (s : bool) (c : N) : Z :=
  if s then - Z.of_N c else Z.of_N c.

Definition negate (d : Decimal) : Decimal :=
  match d with
  | Fin s c e => Fin (negb s) c e
  | Inf s => Inf (negb s)
  | NaN g => NaN g
  end.

(** [__add__]: the aligned coefficients are added exactly and the sum is
    rounded by [_fix]; a zero sum is negative only when both operands
    are. *)
Definition add (a b : Decimal) : result Decimal :=
  match check_nans a b with
  | Some r => r
  | None =>
    match a, b with
    | Inf s1, Inf s2 =>
        if eqb s1 s2 then Ok (Inf s1)
        else Raise (DecimalException InvalidOperation)
    | Inf s1, _ => Ok (Inf s1)
    | _, Inf s2 => Ok (Inf s2)
    | Fin s1 c1 e1, Fin s2 c2 e2 =>
        let m := Z.min e1 e2 in
        let z := signed s1 c1 * Z.of_N (pow10 (e1 - m))
                 + signed s2 c2 * Z.of_N (pow10 (e2 - m)) in
        let s := if z <? 0 then true else if 0 <? z then false else s1 && s2 in
        _fix s (Z.abs_N z) m
    | _, _ => Ok (NaN false)
    end
  end.

(** [__sub__] *)
Definition sub (a b : Decimal) : result Decimal :=
  match check_nans a b with
  | Some r => r
  | None => add a (negate b)
  end.

(** [__mul__] *)
Definition mul (a b : Decimal) : result Decimal :=
  match check_nans a b with
  | Some r => r
  | None =>
    match a, b with
    | Inf s1, Inf s2 => Ok (Inf (xorb s1 s2))
    | Inf s1, Fin s2 c2 _ =>
        if (c2 =? 0)%N then Raise (DecimalException InvalidOperation)
        else Ok (Inf (xorb s1 s2))
    | Fin s1 c1 _, Inf s2 =>
        if (c1 =? 0)%N then Raise (DecimalException InvalidOperation)
        else Ok (Inf (xorb s1 s2))
    | Fin s1 c1 e1, Fin s2 c2 e2 => _fix (xorb s1 s2) (c1 * c2)%N (e1 + e2)
    | _, _ => Ok (NaN false)
    end
  end.

(** The loop of [__truediv__] that removes trailing zeros of an exact
    quotient while the exponent is below the ideal one. *)
Fixpoint strip_zeros (fuel : nat) (coeff : N) (exp ideal : Z) : N * Z :=
  match fuel with
  | O => (coeff, exp)
  | S f =>
      if (exp <? ideal) && (coeff mod 10 =? 0)%N
      then strip_zeros f (coeff / 10)%N (exp + 1) ideal
      else (coeff, exp)
  end.

(** [__truediv__] *)
Definition truediv (a b : Decimal) : result Decimal :=
  match check_nans a b with
  | Some r => r
  | None =>
    match a, b with
    | Inf _, Inf _ => Raise (DecimalException InvalidOperation)
    | Inf s1, Fin s2 _ _ => Ok (Inf (xorb s1 s2))
    | Fin s1 _ _, Inf s2 => Ok (Fin (xorb s1 s2) 0 Etiny)
    | Fin s1 c1 e1, Fin s2 c2 e2 =>
        let sign := xorb s1 s2 in
        if (c2 =? 0)%N then
          if (c1 =? 0)%N then Raise (DecimalException InvalidOperation)
          else Raise (DecimalException DivisionByZero)
        else if (c1 =? 0)%N then _fix sign 0 (e1 - e2)
        else
          let shift := ndigits c2 - ndigits c1 + prec + 1 in
          let exp := e1 - e2 - shift in
          let '(coeff, remainder) :=
            if 0 <=? shift
            then N.div_eucl (c1 * pow10 shift) c2
            else N.div_eucl c1 (c2 * pow10 (- shift)) in
          let '(coeff, exp) :=
            if (remainder =? 0)%N
            then strip_zeros (Z.to_nat (e1 - e2 - exp)) coeff exp (e1 - e2)
            else ((if (coeff mod 5 =? 0)%N then coeff + 1 else coeff)%N, exp) in
          _fix sign coeff exp
    | _, _ => Ok (NaN false)
    end
  end.

(** [d == 0]: numeric comparison with the integer zero.  A quiet NaN
    compares unequal, a signaling NaN raises. *)
Definition eq_zero (d : Decimal) : result bool :=
  match d with
  | Fin _ c _ => Ok (c =? 0)%N
  | Inf _ => Ok false
  | NaN false => Ok false
  | NaN true => Raise (DecimalException InvalidOperation)
  end.

(** The number a finite decimal denotes. *)
Definition Qpow10 (e : Z) : Q := Qpower (inject_Z 10) e.

Definition value (d : Decimal) : option Q :=
  match d with
  | Fin s c e => Some (inject_Z (signed s c) * Qpow10 e)%Q
  | _ => None
  end.

(** A finite decimal that fits the context: at most [prec] digits and an
    exponent within the context's range. *)
Definition in_context (d : Decimal) : Prop :=
  match d with
  | Fin _ c e => (c < pow10 prec)%N /\ Etiny <= e /\ ndigits c + e - 1 <= Emax
  | _ => False
  end.

(** A number is representable when a decimal that fits the context
    denotes it. *)
Definition representable (x : Q) : Prop :=
  exists d y, in_context d /\ value d = Some y /\ (y == x)%Q.

End Dec.

(** ** The arithmetic the module relies on

    The functions and methods below only use [+], [-], [*], [/] and
    [== 0] of their operands, whatever their type; each may raise. *)
Class Number (T : Type) : Type := {
  py_add : T -> T -> result T;
  py_sub : T -> T -> result T;
  py_mul : T -> T -> result T;
  py_truediv : T -> T -> result T;
  py_eq_zero : T -> result bool;
}.

#[global] Instance Decimal_Number : Number Dec.Decimal := {|
  py_add := Dec.add;
  py_sub := Dec.sub;
  py_mul := Dec.mul;
  py_truediv := Dec.truediv;
  py_eq_zero := Dec.eq_zero;
|}.

(** ** Standalone functions *)

Definition add {T} `{Number T} (a b : T) : result T :=
  result ← py_add a b;
  mret result.

Definition subtract {T} `{Number T} (a b : T) : result T :=
  result ← py_sub a b;
  mret result.

Definition multiply {T} `{Number T} (a b : T) : result T :=
  result ← py_mul a b;
  mret result.

Definition divide {T} `{Number T} (a b : T) : result T :=
  is_zero ← py_eq_zero b;
  if is_zero : bool then Raise (ValueError "Cannot divide by zero!")
  else
    result ← py_truediv a b;
    mret result.

(** ** Operation classes *)

Module Operation.
(** [validate_operands] of the base class: [pass]. *)
Definition validate_operands {T} `{Number T} (a b : T) : result unit :=
  mret tt.
End Operation.

Module Addition.
(** [validate_operands] is inherited from [Operation]. *)
Definition execute {T} `{Number T} (a b : T) : result T :=
  _ ← Operation.validate_operands a b;
  py_add a b.
End Addition.

Module Subtraction.
(** [validate_operands] is inherited from [Operation]. *)
Definition execute {T} `{Number T} (a b : T) : result T :=
  _ ← Operation.validate_operands a b;
  py_sub a b.
End Subtraction.

Module Multiplication.
(** [validate_operands] is inherited from [Operation]. *)
Definition execute {T} `{Number T} (a b : T) : result T :=
  _ ← Operation.validate_operands a b;
  py_mul a b.
End Multiplication.

Module Division.
(** The override: the base check, then the zero divisor test. *)
Definition validate_operands {T} `{Number T} (a b : T) : result unit :=
  _ ← Operation.validate_operands a b;
  is_zero ← py_eq_zero b;
  if is_zero : bool
  then Raise (ValidationError "Division by zero is not allowed")
  else mret tt.

Definition execute {T} `{Number T} (a b : T) : result T :=
  _ ← validate_operands a b;
  py_truediv a b.
End Division.

(** ** Python objects seen by the factory *)

(** A class object, reduced to what the factory observes of it: its name,
    the names of the classes of its [__mro__] (itself first), its
    [__abstractmethods__], and what its constructor does when it is called
    without arguments (return, or raise: a required parameter is a
    [TypeError]).  Classes are identified by name; their metaclass is the
    one of [Operation], so a class object is always truthy.  The classes
    described create their instances with [object.__new__], as every class
    of the module does: a class that overrides [__new__], for instance to
    hand out a cached object, is not described by this record. *)
Record pyclass : Type := {
  cls_name : string;
  cls_mro : list string;
  cls_abstractmethods : list string;
  cls_init : result unit;
}.

(** An instance: its identity and its class. *)
Record instance : Type := {
  obj_id : nat;
  obj_class : pyclass;
}.

Inductive pyobj : Type :=
| PyNone
| PyStr (s : string)
| PyInt (z : Z)
| PyClass (c : pyclass)
| PyObject (o : instance).

(** [Operation.__str__], as an instance has it whose class does not
    override it. *)
Definition __str__ (self : instance) : string := cls_name (obj_class self).

Definition Operation_cls : pyclass := {|
  cls_name := "Operation";
  cls_mro := ["Operation"; "ABC"; "object"];
  cls_abstractmethods := ["execute"];
  cls_init := Ok tt;
|}.

Definition concrete_operation (name : string) : pyclass := {|
  cls_name := name;
  cls_mro := [name; "Operation"; "ABC"; "object"];
  cls_abstractmethods := [];
  cls_init := Ok tt;
|}.

Definition Addition_cls : pyclass := concrete_operation "Addition".
Definition Subtraction_cls : pyclass := concrete_operation "Subtraction".
Definition Multiplication_cls : pyclass := concrete_operation "Multiplication".
Definition Division_cls : pyclass := concrete_operation "Division".

(** Truth value of an object, as [not x] tests it. *)
Definition truthy (x : pyobj) : bool :=
  match x with
  | PyNone => false
  | PyStr s => negb (String.eqb s "")
  | PyInt z => negb (z =? 0)
  | PyClass _ => true
  | PyObject _ => true
  end.

Definition type_name (x : pyobj) : string :=
  match x with
  | PyNone => "NoneType"
  | PyStr _ => "str"
  | PyInt _ => "int"
  | PyClass _ => "type"
  | PyObject o => cls_name (obj_class o)
  end.

(** [issubclass(x, base)]: raises when [x] is not a class.  The module
    registers no virtual subclass, so the answer is read off the MRO. *)
Definition issubclass (x : pyobj) (base : pyclass) : result bool :=
  match x with
  | PyClass c => Ok (bool_decide (cls_name base ∈ cls_mro c))
  | _ => Raise (TypeError "issubclass() arg 1 must be a class")
  end.

(** [str.lower] on ASCII text: names are byte strings and only the letters
    A to Z are mapped, other bytes are left as they are.  On names made of
    ASCII characters this is Python's [str.lower]; on other names it is
    not, so a statement that two names are different keys is made for
    ASCII names only (see [is_ascii]). *)
Definition ascii_lower (c : ascii) : ascii :=
  let n := N_of_ascii c in
  if ((65 <=? n) && (n <=? 90))%N then ascii_of_N (n + 32) else c.

Fixpoint lower (s : string) : string :=
  match s with
  | EmptyString => EmptyString
  | String c s' => String (ascii_lower c) (lower s')
  end.

(** [needle in haystack] for strings. *)
Definition contains (haystack needle : string) : Prop :=
  exists pre post, haystack = pre +:+ needle +:+ post.

(** ** Process state and the factory *)

(** The state the factory lives in: the class attribute [_operations] and
    the number of objects allocated so far, which gives each new instance
    its identity. *)
Record world : Type := {
  _operations : gmap string pyobj;
  heap_next : nat;
}.

(** Stateful computations that may raise; the state survives an
    exception. *)
Record M (A : Type) : Type := mkM { run : world -> result A * world }.
Arguments mkM {A} run.
Arguments run {A} m w.

#[global] Instance M_ret : MRet M := fun _ a => mkM (fun w => (Ok a, w)).
#[global] Instance M_bind : MBind M := fun _ _ f m =>
  mkM (fun w =>
    match run m w with
    | (Ok a, w') => run (f a) w'
    | (Raise e, w') => (Raise e, w')
    end).

Definition raise {A} (e : exn) : M A := mkM (fun w => (Raise e, w)).
Definition lift {A} (r : result A) : M A := mkM (fun w => (r, w)).
Definition get_operations : M (gmap string pyobj) :=
  mkM (fun w => (Ok (_operations w), w)).
Definition set_item (key : string) (v : pyobj) : M unit :=
  mkM (fun w => (Ok tt, {| _operations := <[key := v]> (_operations w);
                           heap_next := heap_next w |})).
Definition alloc (c : pyclass) : M instance :=
  mkM (fun w => (Ok {| obj_id := heap_next w; obj_class := c |},
                 {| _operations := _operations w;
                    heap_next := S (heap_next w) |})).

(** [d.get(k)]: [None] when the key is absent. *)
Definition dict_get (d : gmap string pyobj) (k : string) : pyobj :=
  default PyNone (d !! k).

(** Calling a class with no arguments, for a class that creates its
    instances with [object.__new__]: abstract classes cannot be
    instantiated; otherwise the object is allocated and initialised. *)
Definition instantiate (c : pyclass) : M pyobj :=
  match cls_abstractmethods c with
  | [] =>
      o ← alloc c;
      _ ← lift (cls_init c);
      mret (PyObject o)
  | ms =>
      raise (TypeError ("Can't instantiate abstract class " +:+ cls_name c
                        +:+ " with abstract method"
                        +:+ (if decide (length ms = 1%nat) then "" else "s")
                        +:+ " " +:+ String.concat ", " ms))
  end.

Definition call (f : pyobj) : M pyobj :=
  match f with
  | PyClass c => instantiate c
  | _ => raise (TypeError ("'" +:+ type_name f +:+ "' object is not callable"))
  end.

Module OperationFactory.

Definition initial_operations : gmap string pyobj :=
  <["add" := PyClass Addition_cls]>
  (<["subtract" := PyClass Subtraction_cls]>
  (<["multiply" := PyClass Multiplication_cls]>
  (<["divide" := PyClass Division_cls]> ∅))).

Definition register_operation (name : string) (operation_class : pyobj)
  : M unit :=
  conforms ← lift (issubclass operation_class Operation_cls);
  if negb conforms
  then raise (TypeError "Operation class must inherit from Operation")
  else set_item (lower name) operation_class.

Definition create_operation (operation_type : string) : M pyobj :=
  ops ← get_operations;
  let operation_class := dict_get ops (lower operation_type) in
  if negb (truthy operation_class)
  then raise (ValueError ("Unknown operation: " +:+ operation_type))
  else call operation_class.

End OperationFactory.

(** The process starts with the four built-in entries. *)
Definition initial_world : world := {|
  _operations := OperationFactory.initial_operations;
  heap_next := 0;
|}.

(** One call of a factory method. *)
Inductive step : world -> world -> Prop :=
| step_register name v w :
    step w (snd (run (OperationFactory.register_operation name v) w))
| step_create name w :
    step w (snd (run (OperationFactory.create_operation name) w)).

(** The states the process can be in. *)
Definition reachable (w : world) : Prop := rtc step initial_world w.

(** The check of [register_operation]: [conforms v] says that
    [issubclass(v, Operation)] is true, and nothing more.  It does not say
    that the class implements [execute] (see [implements_operation]). *)
Definition conforms (v : pyobj) : Prop := issubclass v Operation_cls = Ok true.

(** [K] is a case variant of [k]. *)
Definition case_variant (K k : string) : Prop := lower K = lower k.

(** Invariant of the registry: keys are lowercase and values are classes
    accepted by the conformance check. *)
Definition registry_ok (w : world) : Prop :=
  forall k v, _operations w !! k = Some v -> lower k = k /\ conforms v.

(** A class that does not inherit from [Operation]. *)
Definition InvalidOperation_cls : pyclass := {|
  cls_name := "InvalidOperation";
  cls_mro := ["InvalidOperation"; "object"];
  cls_abstractmethods := [];
  cls_init := Ok tt;
|}.

(** An abstract subclass of [Operation]: [execute] is not implemented. *)
Definition Shape_cls : pyclass := {|
  cls_name := "Shape";
  cls_mro := ["Shape"; "Operation"; "ABC"; "object"];
  cls_abstractmethods := ["execute"];
  cls_init := Ok tt;
|}.

(** A concrete subclass of [Operation]. *)
Definition Modulus_cls : pyclass := concrete_operation "Modulus".

(** A name made of ASCII characters only. *)
Fixpoint is_ascii (s : string) : bool :=
  match s with
  | EmptyString => true
  | String c s' => (N_of_ascii c <? 128)%N && is_ascii s'
  end.

(** A class whose [execute] is still abstract: no instance of it can offer
    the capability set of [Operation]. *)
Definition execute_is_abstract (c : pyclass) : Prop :=
  "execute" ∈ cls_abstractmethods c.

(** A class that provides the capability set of [Operation]: it inherits
    [validate_operands] and [__str__] from [Operation] and leaves no
    method abstract, so it implements [execute]. *)
Definition implements_operation (c : pyclass) : Prop :=
  cls_name Operation_cls ∈ cls_mro c /\ cls_abstractmethods c = [].


(** A result that, when finite, fits the context. *)
Definition finite_in_context (d : Dec.Decimal) : Prop :=
  match d with Dec.Fin _ _ _ => Dec.in_context d | _ => True end.

(** [self.execute] for an instance of one of the four classes the module
    defines; [None] for an instance of any other class, whose [execute]
    is not part of the module. *)
Definition execute_of {T} `{Number T} (self : instance)
  : option (T -> T -> result T) :=
  let name := cls_name (obj_class self) in
  if String.eqb name "Addition" then Some Addition.execute
  else if String.eqb name "Subtraction" then Some Subtraction.execute
  else if String.eqb name "Multiplication" then Some Multiplication.execute
  else if String.eqb name "Division" then Some Division.execute
  else None.

(** * Properties *)

(** ** Strings *)

Lemma ascii_lower_idempotent (c : ascii) :
  ascii_lower (ascii_lower c) = ascii_lower c.
Proof. destruct c as [[] [] [] [] [] [] [] []]; reflexivity. Qed.

Lemma lower_idempotent (s : string) : lower (lower s) = lower s.
Proof.
  induction s as [|c s IH]; simpl; [reflexivity|].
  now rewrite ascii_lower_idempotent, IH.
Qed.

Lemma contains_suffix (pre s : string) : contains (pre +:+ s) s.
Proof.
  exists pre, EmptyString. f_equal.
  induction s as [|c s IH]; [reflexivity|].
  change (String c s = String c (s +:+ EmptyString)). now rewrite <- IH.
Qed.

(** ** Decimal arithmetic in the default context *)

Module DecFacts.
Import Dec.

Lemma pow10_pos (k : Z) : (0 < pow10 k)%N.
Proof. unfold pow10. apply N.neq_0_lt_0, N.pow_nonzero. discriminate. Qed.

Lemma pow10_0 : pow10 0 = 1%N.
Proof. reflexivity. Qed.

Lemma pow10_add (a b : Z) :
  0 <= a -> 0 <= b -> pow10 (a + b) = (pow10 a * pow10 b)%N.
Proof.
  intros Ha Hb. unfold pow10. rewrite Z2N.inj_add by assumption.
  apply N.pow_add_r.
Qed.

Lemma pow10_succ (a : Z) : 0 <= a -> pow10 (a + 1) = (10 * pow10 a)%N.
Proof. intros Ha. rewrite pow10_add by lia. change (pow10 1) with 10%N. lia. Qed.

Lemma pow10_le (a b : Z) : a <= b -> (pow10 a <= pow10 b)%N.
Proof.
  intros H. unfold pow10. apply N.pow_le_mono_r; [discriminate|]. lia.
Qed.

Lemma pow10_lt (a b : Z) : 0 <= a -> a < b -> (pow10 a < pow10 b)%N.
Proof.
  intros Ha H. unfold pow10. apply N.pow_lt_mono_r; [reflexivity|]. lia.
Qed.

Lemma pow10_lt_inv (a b : Z) : 0 <= b -> (pow10 a < pow10 b)%N -> a < b.
Proof.
  intros Hb H. destruct (Z_lt_le_dec a b) as [|Hle]; [assumption|].
  apply pow10_le in Hle. lia.
Qed.

Lemma ndigits_aux_spec (fuel : nat) : forall c : N,
  (c < 2 ^ N.of_nat fuel)%N ->
  1 <= ndigits_aux fuel c
  /\ (c < pow10 (ndigits_aux fuel c))%N
  /\ (c <> 0%N -> (pow10 (ndigits_aux fuel c - 1) <= c)%N).
Proof.
  induction fuel as [|f IH]; intros c Hc.
  - simpl in *. assert (c = 0%N) by lia. subst. repeat split; lia.
  - cbn [ndigits_aux]. destruct (N.ltb_spec c 10) as [Hlt|Hge].
    + change (pow10 1) with 10%N. change (pow10 (1 - 1)) with 1%N.
      repeat split; lia.
    + assert (Hq : (c / 10 < 2 ^ N.of_nat f)%N).
      { rewrite Nat2N.inj_succ, N.pow_succ_r' in Hc.
        apply N.Div0.div_lt_upper_bound. lia. }
      destruct (IH _ Hq) as (H1 & H2 & H3).
      pose proof (N.div_mod c 10 ltac:(discriminate)) as Hdm.
      pose proof (N.mod_lt c 10 ltac:(discriminate)) as Hm.
      assert (Hq0 : (c / 10 <> 0)%N).
      { intros E. rewrite E in Hdm. lia. }
      specialize (H3 Hq0). clear IH Hc Hq.
      set (q := (c / 10)%N) in *. set (r := (c mod 10)%N) in *.
      clearbody q r.
      replace (1 + ndigits_aux f q) with (ndigits_aux f q + 1) by lia.
      replace (ndigits_aux f q + 1 - 1) with ((ndigits_aux f q - 1) + 1) by lia.
      rewrite !pow10_succ by lia.
      set (p1 := pow10 (ndigits_aux f q)) in *.
      set (p2 := pow10 (ndigits_aux f q - 1)) in *.
      clearbody p1 p2. repeat split; lia.
Qed.

Lemma ndigits_spec (c : N) :
  1 <= ndigits c /\ (c < pow10 (ndigits c))%N
  /\ (c <> 0%N -> (pow10 (ndigits c - 1) <= c)%N).
Proof.
  unfold ndigits. apply ndigits_aux_spec.
  rewrite N2Nat.id. apply N.size_gt.
Qed.

Lemma ndigits_unique (c : N) (n : Z) :
  1 <= n -> (pow10 (n - 1) <= c)%N -> (c < pow10 n)%N -> ndigits c = n.
Proof.
  intros Hn Hlo Hhi.
  destruct (ndigits_spec c) as (H1 & H2 & H3).
  assert (Hc : c <> 0%N) by (pose proof (pow10_pos (n - 1)); lia).
  specialize (H3 Hc).
  assert (n - 1 < ndigits c) by (apply pow10_lt_inv; lia).
  assert (ndigits c - 1 < n) by (apply pow10_lt_inv; lia).
  lia.
Qed.

Lemma ndigits_mul_pow10 (c : N) (k : Z) :
  c <> 0%N -> 0 <= k -> ndigits (c * pow10 k) = ndigits c + k.
Proof.
  intros Hc Hk. destruct (ndigits_spec c) as (H1 & H2 & H3).
  specialize (H3 Hc). apply ndigits_unique; [lia| |].
  - replace (ndigits c + k - 1) with ((ndigits c - 1) + k) by lia.
    rewrite pow10_add by lia. apply N.mul_le_mono_r. exact H3.
  - rewrite pow10_add by lia. apply N.mul_lt_mono_pos_r; [apply pow10_pos|exact H2].
Qed.

Lemma ndigits_le_prec (c : N) : (c < pow10 prec)%N -> ndigits c <= prec.
Proof.
  intros H. destruct (N.eq_dec c 0%N) as [->|Hc]; [vm_compute; discriminate|].
  destruct (ndigits_spec c) as (H1 & H2 & H3). specialize (H3 Hc).
  assert (ndigits c - 1 < prec) by (apply pow10_lt_inv; [unfold prec; lia | lia]).
  lia.
Qed.

Lemma div_mul_pow10 (a : N) (k : Z) : (a * pow10 k / pow10 k = a)%N.
Proof. apply N.div_mul. pose proof (pow10_pos k). lia. Qed.

Lemma mod_mul_pow10 (a : N) (k : Z) : ((a * pow10 k) mod pow10 k = 0)%N.
Proof. apply N.Div0.mod_mul. Qed.

Lemma round_half_even_exact (a : N) (k : Z) :
  round_half_even (a * pow10 k) k = a.
Proof.
  unfold round_half_even. rewrite div_mul_pow10, mod_mul_pow10.
  pose proof (pow10_pos k) as Hp.
  destruct (N.ltb_spec (pow10 k) (2 * 0)) as [H|H]; [lia|].
  destruct (N.eqb_spec (2 * 0) (pow10 k)) as [H'|H']; [lia|]. reflexivity.
Qed.

Lemma fix_exact_N (s : bool) (c q : N) (e j : Z) :
  c <> 0%N ->
  (q < pow10 prec)%N -> Etiny <= j -> ndigits q + j - 1 <= Emax ->
  (j <= e /\ q = (c * pow10 (e - j))%N) \/ (e < j /\ c = (q * pow10 (j - e))%N) ->
  exists c' e',
    _fix s c e = Ok (Fin s c' e') /\ e <= e' /\ c = (c' * pow10 (e' - e))%N.
Proof.
  intros Hc Hq Hj Hmax Hrep.
  pose proof (ndigits_le_prec q Hq) as Hnq.
  assert (Hadj : ndigits c + e = ndigits q + j).
  { destruct Hrep as [[Hle ->]|[Hlt ->]].
    - rewrite ndigits_mul_pow10 by (assumption || lia). lia.
    - rewrite ndigits_mul_pow10; [lia| |lia].
      intros ->. now rewrite N.mul_0_l in Hc. }
  unfold _fix.
  destruct (N.eqb_spec c 0) as [|_]; [contradiction|].
  destruct (Z.ltb_spec Etop (ndigits c + e - prec)) as [Hov|Hov];
    [unfold Etop, prec in *; lia|].
  destruct (Z.ltb_spec e (Z.max (ndigits c + e - prec) Etiny)) as [Hround|Hkeep].
  2:{ exists c, e. split; [reflexivity|]. split; [lia|].
      rewrite Z.sub_diag. change (pow10 0) with 1%N. lia. }
  set (exp_min := Z.max (ndigits c + e - prec) Etiny) in *.
  assert (Hej : exp_min <= j) by (unfold exp_min; lia).
  destruct Hrep as [[Hle _]|[Hlt Hcq]]; [lia|].
  destruct (Z.ltb_spec (ndigits c + e - exp_min) 0) as [Hneg|_].
  { pose proof (proj1 (ndigits_spec q)). lia. }
  assert (Hsplit : c = (q * pow10 (j - exp_min) * pow10 (exp_min - e))%N).
  { rewrite <- N.mul_assoc, <- pow10_add by lia.
    now replace (j - exp_min + (exp_min - e)) with (j - e) by lia. }
  assert (Hr : round_half_even c (exp_min - e) = (q * pow10 (j - exp_min))%N)
    by (rewrite Hsplit; apply round_half_even_exact).
  cbv beta iota zeta. rewrite Hr.
  assert (Hq0 : q <> 0%N) by (intros ->; now rewrite N.mul_0_l in Hcq).
  assert (Hnd : ndigits (q * pow10 (j - exp_min)) = ndigits q + (j - exp_min))
    by (apply ndigits_mul_pow10; [assumption | lia]).
  destruct (Z.ltb_spec prec (ndigits (q * pow10 (j - exp_min)))) as [Hcarry|_].
  { unfold exp_min in *. lia. }
  destruct (Z.ltb_spec Etop exp_min) as [Hov2|_].
  { unfold exp_min, Etop, Etiny, Emin, Emax, prec in *. lia. }
  exists (q * pow10 (j - exp_min))%N, exp_min.
  split; [reflexivity|]. split; [lia | exact Hsplit].
Qed.

Lemma Qpow10_nonzero (e : Z) : ~ (Qpow10 e == 0)%Q.
Proof. apply Qpower_not_0. discriminate. Qed.

Lemma Qpow10_add (a b : Z) : (Qpow10 (a + b) == Qpow10 a * Qpow10 b)%Q.
Proof. apply Qpower_plus. discriminate. Qed.

Lemma Qpow10_nonneg (k : Z) :
  0 <= k -> (Qpow10 k == inject_Z (Z.of_N (pow10 k)))%Q.
Proof.
  intros Hk. unfold Qpow10, pow10.
  rewrite N2Z.inj_pow, Z2N.id by assumption.
  symmetry. now apply Zpower_Qpower.
Qed.

Lemma Qpow10_split (e1 e2 : Z) :
  e1 <= e2 ->
  (Qpow10 e2 == inject_Z (Z.of_N (pow10 (e2 - e1))) * Qpow10 e1)%Q.
Proof.
  intros H. rewrite <- Qpow10_nonneg by lia. rewrite <- Qpow10_add.
  now replace (e2 - e1 + e1) with e2 by lia.
Qed.

Lemma scaled_eq (x y e1 e2 : Z) :
  e1 <= e2 ->
  (inject_Z x * Qpow10 e1 == inject_Z y * Qpow10 e2)%Q <->
  x = y * Z.of_N (pow10 (e2 - e1)).
Proof.
  intros H. rewrite (Qpow10_split e1 e2 H), Qmult_assoc.
  rewrite Qmult_inj_r by apply Qpow10_nonzero.
  rewrite <- inject_Z_mult. apply inject_Z_injective.
Qed.

Lemma signed_mul (s : bool) (c p : N) :
  signed s (c * p) = signed s c * Z.of_N p.
Proof. unfold signed. destruct s; rewrite N2Z.inj_mul; ring. Qed.

Lemma signed_scaled_abs (s s' : bool) (q c p : N) :
  signed s' q = signed s c * Z.of_N p -> q = (c * p)%N.
Proof.
  unfold signed. intros H.
  destruct s, s'; rewrite <- ?Z.mul_opp_l, <- ?N2Z.inj_mul in H;
    try rewrite Z.mul_opp_l, <- N2Z.inj_mul in H; lia.
Qed.

Lemma signed_zero (s : bool) : signed s 0 = 0.
Proof. now destruct s. Qed.

(** Rounding to the context is exact on representable values. *)
Lemma fix_exact (s : bool) (c : N) (e : Z) :
  representable (inject_Z (signed s c) * Qpow10 e) ->
  exists c' e',
    _fix s c e = Ok (Fin s c' e')
    /\ (inject_Z (signed s c') * Qpow10 e' == inject_Z (signed s c) * Qpow10 e)%Q.
Proof.
  intros (d & y & Hctx & Hval & Heq).
  destruct (N.eq_dec c 0%N) as [->|Hc].
  { unfold _fix. simpl. eexists _, _. split; [reflexivity|].
    rewrite signed_zero. now rewrite !Qmult_0_l. }
  destruct d as [s' q j| |]; try contradiction.
  destruct Hctx as (Hq & Hj & Hmax). injection Hval as <-.
  assert (Hrep : (j <= e /\ q = (c * pow10 (e - j))%N)
                 \/ (e < j /\ c = (q * pow10 (j - e))%N)).
  { destruct (Z_le_gt_dec j e) as [Hle|Hgt].
    - left. split; [assumption|].
      apply (scaled_eq _ _ j e Hle) in Heq.
      now apply signed_scaled_abs in Heq.
    - right. split; [lia|]. symmetry in Heq.
      apply (scaled_eq _ _ e j ltac:(lia)) in Heq.
      now apply signed_scaled_abs in Heq. }
  destruct (fix_exact_N s c q e j Hc Hq Hj Hmax Hrep) as (c' & e' & Hfix & Hle & Hcc).
  exists c', e'. split; [exact Hfix|].
  symmetry. apply (scaled_eq _ _ e e' Hle).
  rewrite Hcc at 1. apply signed_mul.
Qed.

Lemma representable_proper (x y : Q) :
  (x == y)%Q -> representable x -> representable y.
Proof.
  intros Hxy (d & v & Hctx & Hval & Hv). exists d, v.
  repeat split; try assumption. now rewrite Hv.
Qed.

Lemma fix_exact_value (s : bool) (c : N) (e : Z) (x : Q) :
  (inject_Z (signed s c) * Qpow10 e == x)%Q ->
  representable x ->
  exists r v, _fix s c e = Ok r /\ value r = Some v /\ (v == x)%Q.
Proof.
  intros Hx Hrep.
  destruct (fix_exact s c e) as (c' & e' & Hfix & Hv).
  { apply (representable_proper x); [now symmetry | assumption]. }
  exists (Fin s c' e'), (inject_Z (signed s c') * Qpow10 e')%Q.
  split; [exact Hfix|]. split; [reflexivity|]. now rewrite Hv.
Qed.

Lemma signed_abs (z : Z) (s0 : bool) :
  signed (if z <? 0 then true else if 0 <? z then false else s0) (Z.abs_N z) = z.
Proof.
  unfold signed.
  destruct (Z.ltb_spec z 0); [lia|]. destruct (Z.ltb_spec 0 z); [lia|].
  destruct s0; lia.
Qed.

Lemma add_exact (a b : Decimal) (x y : Q) :
  value a = Some x -> value b = Some y -> representable (x + y) ->
  exists r v, Dec.add a b = Ok r /\ value r = Some v /\ (v == x + y)%Q.
Proof.
  destruct a as [s1 c1 e1| |], b as [s2 c2 e2| |]; try discriminate.
  intros [= <-] [= <-] Hrep. unfold Dec.add.
  change (check_nans (Fin s1 c1 e1) (Fin s2 c2 e2)) with (@None (result Decimal)).
  cbv beta iota zeta.
  set (m := Z.min e1 e2).
  set (z := signed s1 c1 * Z.of_N (pow10 (e1 - m))
            + signed s2 c2 * Z.of_N (pow10 (e2 - m))).
  apply fix_exact_value; [|exact Hrep].
  rewrite signed_abs. unfold z.
  rewrite inject_Z_plus, !inject_Z_mult.
  rewrite (Qpow10_split m e1), (Qpow10_split m e2) by (unfold m; lia).
  ring.
Qed.

Lemma signed_negb (s : bool) (c : N) : signed (negb s) c = - signed s c.
Proof. unfold signed. destruct s; simpl; lia. Qed.

Lemma sub_exact (a b : Decimal) (x y : Q) :
  value a = Some x -> value b = Some y -> representable (x - y) ->
  exists r v, Dec.sub a b = Ok r /\ value r = Some v /\ (v == x - y)%Q.
Proof.
  destruct a as [s1 c1 e1| |], b as [s2 c2 e2| |]; try discriminate.
  intros [= <-] [= <-] Hrep. unfold Dec.sub.
  change (check_nans (Fin s1 c1 e1) (Fin s2 c2 e2)) with (@None (result Decimal)).
  cbv beta iota.
  assert (Hneg : (inject_Z (signed s1 c1) * Qpow10 e1
                  - inject_Z (signed s2 c2) * Qpow10 e2 ==
                  inject_Z (signed s1 c1) * Qpow10 e1
                  + inject_Z (signed (negb s2) c2) * Qpow10 e2)%Q)
    by (rewrite signed_negb, inject_Z_opp; ring).
  destruct (add_exact (Fin s1 c1 e1) (negate (Fin s2 c2 e2)) _ _ eq_refl eq_refl)
    as (r & v & Hadd & Hval & Hv).
  { eapply representable_proper; [exact Hneg | exact Hrep]. }
  exists r, v. repeat split; try assumption. now rewrite Hv, Hneg.
Qed.

Lemma signed_xorb (s1 s2 : bool) (c1 c2 : N) :
  signed (xorb s1 s2) (c1 * c2) = signed s1 c1 * signed s2 c2.
Proof. unfold signed. destruct s1, s2; simpl; rewrite N2Z.inj_mul; ring. Qed.

Lemma mul_exact (a b : Decimal) (x y : Q) :
  value a = Some x -> value b = Some y -> representable (x * y) ->
  exists r v, Dec.mul a b = Ok r /\ value r = Some v /\ (v == x * y)%Q.
Proof.
  destruct a as [s1 c1 e1| |], b as [s2 c2 e2| |]; try discriminate.
  intros [= <-] [= <-] Hrep. unfold Dec.mul.
  change (check_nans (Fin s1 c1 e1) (Fin s2 c2 e2)) with (@None (result Decimal)).
  cbv beta iota.
  apply fix_exact_value; [|exact Hrep].
  rewrite signed_xorb, inject_Z_mult, Qpow10_add. ring.
Qed.

Lemma ndigits_mul_le (a b : N) : ndigits (a * b) <= ndigits a + ndigits b.
Proof.
  destruct (ndigits_spec a) as (Ha1 & Ha2 & _).
  destruct (ndigits_spec b) as (Hb1 & Hb2 & _).
  destruct (ndigits_spec (a * b)) as (H1 & _ & H3).
  destruct (N.eq_dec (a * b)%N 0%N) as [->|Hab]; [change (ndigits 0) with 1; lia|].
  specialize (H3 Hab).
  assert (Hlt : (a * b < pow10 (ndigits a + ndigits b))%N).
  { rewrite pow10_add by lia. apply N.mul_lt_mono; assumption. }
  assert (ndigits (a * b) - 1 < ndigits a + ndigits b)
    by (apply pow10_lt_inv; lia).
  lia.
Qed.

Lemma strip_zeros_spec (fuel : nat) : forall (c : N) (e ideal : Z) c' e',
  strip_zeros fuel c e ideal = (c', e') ->
  e <= e' /\ c = (c' * pow10 (e' - e))%N.
Proof.
  induction fuel as [|f IH]; intros c e ideal c' e'; cbn [strip_zeros].
  - intros [= <- <-]. rewrite Z.sub_diag. change (pow10 0) with 1%N. lia.
  - destruct (Z.ltb_spec e ideal) as [Hlt|Hge]; cbn [andb].
    2:{ intros [= <- <-]. rewrite Z.sub_diag. change (pow10 0) with 1%N. lia. }
    destruct (N.eqb_spec (c mod 10) 0) as [Hmod|Hmod].
    2:{ intros [= <- <-]. rewrite Z.sub_diag. change (pow10 0) with 1%N. lia. }
    intros Hrec. apply IH in Hrec as [Hle Hc]. split; [lia|].
    pose proof (N.div_mod c 10 ltac:(discriminate)) as Hdm.
    rewrite Hmod, N.add_0_r in Hdm. rewrite Hdm, Hc.
    replace (e' - e) with ((e' - (e + 1)) + 1) by lia.
    rewrite pow10_succ by lia. lia.
Qed.

Lemma abs_N_signed (s : bool) (c : N) : Z.abs_N (signed s c) = c.
Proof. unfold signed. destruct s; lia. Qed.

Lemma div_magnitude (s' s1 s2 : bool) (q c1 c2 : N) (j e1 e2 : Z) :
  (inject_Z (signed s' q) * Qpow10 j * (inject_Z (signed s2 c2) * Qpow10 e2)
   == inject_Z (signed s1 c1) * Qpow10 e1)%Q ->
  (0 <= j + e2 - e1 /\ c1 = (q * c2 * pow10 (j + e2 - e1))%N)
  \/ (j + e2 - e1 < 0 /\ (q * c2)%N = (c1 * pow10 (- (j + e2 - e1)))%N).
Proof.
  intros H.
  assert (H' : (inject_Z (signed s' q * signed s2 c2) * Qpow10 (j + e2)
                == inject_Z (signed s1 c1) * Qpow10 e1)%Q).
  { rewrite <- H, inject_Z_mult, Qpow10_add. ring. }
  clear H. destruct (Z_le_gt_dec 0 (j + e2 - e1)) as [Hle|Hgt].
  - left. split; [assumption|]. symmetry in H'.
    apply (scaled_eq _ _ e1 (j + e2) ltac:(lia)) in H'.
    apply (f_equal Z.abs_N) in H'.
    rewrite !Zabs2N.inj_mul, !abs_N_signed, Zabs2N.id in H'. exact H'.
  - right. split; [lia|].
    apply (scaled_eq _ _ (j + e2) e1 ltac:(lia)) in H'.
    apply (f_equal Z.abs_N) in H'.
    rewrite !Zabs2N.inj_mul, !abs_N_signed, Zabs2N.id in H'.
    now replace (- (j + e2 - e1)) with (e1 - (j + e2)) by lia.
Qed.

Lemma div_eucl_exact (a b : N) : b <> 0%N -> N.div_eucl (a * b) b = (a, 0%N).
Proof.
  intros Hb.
  rewrite (surjective_pairing (N.div_eucl (a * b) b)).
  change (fst (N.div_eucl (a * b) b)) with (a * b / b)%N.
  change (snd (N.div_eucl (a * b) b)) with ((a * b) mod b)%N.
  now rewrite N.div_mul, N.Div0.mod_mul.
Qed.

Lemma div_coeff (c1 c2 q : N) (t : Z) :
  c1 <> 0%N -> c2 <> 0%N -> (q < pow10 prec)%N ->
  (0 <= t /\ c1 = (q * c2 * pow10 t)%N)
  \/ (t < 0 /\ (q * c2)%N = (c1 * pow10 (- t))%N) ->
  let shift := ndigits c2 - ndigits c1 + prec + 1 in
  1 <= t + shift
  /\ (if 0 <=? shift
      then N.div_eucl (c1 * pow10 shift) c2
      else N.div_eucl c1 (c2 * pow10 (- shift)))
     = ((q * pow10 (t + shift))%N, 0%N).
Proof.
  intros Hc1 Hc2 Hq Hmag shift.
  pose proof (ndigits_le_prec q Hq) as Hnq.
  pose proof (ndigits_mul_le q c2) as Hnm.
  assert (Hts : 1 <= t + shift).
  { unfold shift. destruct Hmag as [[Ht Hc]|[Ht Hc]].
    - assert (Hqc : (q * c2 <> 0)%N)
        by (intros E; rewrite E, N.mul_0_l in Hc; contradiction).
      rewrite Hc, ndigits_mul_pow10 by (assumption || lia). lia.
    - rewrite Hc, ndigits_mul_pow10 in Hnm by (assumption || lia). lia. }
  split; [exact Hts|].
  pose proof (pow10_pos (- shift)) as Hps.
  destruct (Z.leb_spec 0 shift) as [Hs|Hs].
  - replace (c1 * pow10 shift)%N with (q * pow10 (t + shift) * c2)%N.
    { now apply div_eucl_exact. }
    destruct Hmag as [[Ht Hc]|[Ht Hc]].
    + rewrite Hc, pow10_add by lia. lia.
    + replace shift with (- t + (t + shift)) at 2 by lia.
      rewrite (pow10_add (- t) (t + shift)) by lia.
      rewrite N.mul_assoc, <- Hc. lia.
  - replace c1 with (q * pow10 (t + shift) * (c2 * pow10 (- shift)))%N at 1.
    { apply div_eucl_exact. lia. }
    destruct Hmag as [[Ht Hc]|[Ht Hc]]; [|lia].
    rewrite Hc. replace t with ((t + shift) + (- shift)) at 2 by lia.
    rewrite (pow10_add (t + shift) (- shift)) by lia. lia.
Qed.

Lemma signed_xorb_cancel (s1 s2 : bool) (c c2 : N) :
  signed (xorb s1 s2) c * signed s2 c2 = signed s1 (c * c2).
Proof. unfold signed. destruct s1, s2; simpl; rewrite N2Z.inj_mul; ring. Qed.

Lemma truediv_exact (a b : Decimal) (x y : Q) :
  value a = Some x -> value b = Some y -> ~ (y == 0)%Q ->
  representable (x / y) ->
  exists r v, Dec.truediv a b = Ok r /\ value r = Some v /\ (v == x / y)%Q.
Proof.
  destruct a as [s1 c1 e1| |], b as [s2 c2 e2| |]; try discriminate.
  intros [= <-] [= <-] Hy Hrep. unfold Dec.truediv.
  change (check_nans (Fin s1 c1 e1) (Fin s2 c2 e2)) with (@None (result Decimal)).
  cbv beta iota zeta.
  destruct (N.eqb_spec c2 0) as [->|Hc2].
  { exfalso. apply Hy. rewrite signed_zero. apply Qmult_0_l. }
  destruct (N.eqb_spec c1 0) as [->|Hc1].
  { apply fix_exact_value; [|exact Hrep].
    rewrite !signed_zero. unfold Qdiv. now rewrite !Qmult_0_l. }
  destruct Hrep as (d & v & Hctx & Hval & Hv).
  destruct d as [s' q j| |]; try contradiction.
  destruct Hctx as (Hq & Hj & Hmax). injection Hval as <-.
  assert (Hmul : (inject_Z (signed s' q) * Qpow10 j
                  * (inject_Z (signed s2 c2) * Qpow10 e2)
                  == inject_Z (signed s1 c1) * Qpow10 e1)%Q).
  { rewrite Hv. rewrite Qmult_comm. now apply Qmult_div_r. }
  pose proof (div_magnitude _ _ _ _ _ _ _ _ _ Hmul) as Hmag.
  set (t := j + e2 - e1) in *.
  destruct (div_coeff c1 c2 q t Hc1 Hc2 Hq Hmag) as [Hts Hdiv].
  set (shift := ndigits c2 - ndigits c1 + prec + 1) in *.
  rewrite Hdiv. cbn [N.eqb].
  destruct (strip_zeros _ _ _ _) as [c' e'] eqn:Hstrip.
  apply strip_zeros_spec in Hstrip as [Hle Hc'].
  set (Y := (inject_Z (signed s2 c2) * Qpow10 e2)%Q) in *.
  set (exp0 := e1 - e2 - shift) in *.
  assert (H1 : (inject_Z (signed (xorb s1 s2) c') * Qpow10 e'
                == inject_Z (signed (xorb s1 s2) q) * Qpow10 j)%Q).
  { transitivity (inject_Z (signed (xorb s1 s2) (q * pow10 (t + shift)))
                  * Qpow10 exp0)%Q.
    - symmetry. apply (scaled_eq _ _ exp0 e' Hle).
      rewrite Hc'. apply signed_mul.
    - apply (scaled_eq _ _ exp0 j); [unfold exp0, t in *; lia|].
      replace (j - exp0) with (t + shift) by (unfold exp0, t; lia).
      apply signed_mul. }
  assert (H2 : (inject_Z (signed (xorb s1 s2) q) * Qpow10 j * Y
                == inject_Z (signed s1 c1) * Qpow10 e1)%Q).
  { transitivity (inject_Z (signed s1 (q * c2)) * Qpow10 (j + e2))%Q.
    - unfold Y. rewrite <- (signed_xorb_cancel s1 s2), inject_Z_mult, Qpow10_add. ring.
    - destruct Hmag as [[Ht Hc]|[Ht Hc]].
      + symmetry. apply (scaled_eq _ _ e1 (j + e2)); [unfold t in Ht; lia|].
        rewrite Hc. apply signed_mul.
      + apply (scaled_eq _ _ (j + e2) e1); [unfold t in Ht; lia|].
        rewrite Hc. replace (e1 - (j + e2)) with (- t) by (unfold t; lia).
        apply signed_mul. }
  assert (Hval : (inject_Z (signed (xorb s1 s2) c') * Qpow10 e'
                  == inject_Z (signed s1 c1) * Qpow10 e1 / Y)%Q).
  { rewrite H1, <- H2. symmetry. now apply Qdiv_mult_l. }
  apply fix_exact_value; [exact Hval|].
  exists (Fin s' q j), (inject_Z (signed s' q) * Qpow10 j)%Q.
  repeat split; assumption.
Qed.

Lemma fix_raise (s : bool) (c : N) (e : Z) (ex : exn) :
  _fix s c e = Raise ex -> ex = DecimalException Overflow.
Proof.
  unfold _fix.
  repeat match goal with
         | |- context [if ?b then _ else _] => destruct b
         | |- context [let '(_, _) := ?p in _] => destruct p
         end; intros [=]; congruence.
Qed.

Ltac decimal_raise :=
  repeat match goal with
         | |- context [if ?b then _ else _] => destruct b
         | |- context [let '(_, _) := ?p in _] => destruct p
         end;
  try discriminate;
  try (intros [= <-]; reflexivity);
  try (intros H; apply fix_raise in H; now subst).

Lemma add_raise (a b : Decimal) (ex : exn) :
  Dec.add a b = Raise ex -> kind_of ex = KDecimalException.
Proof.
  unfold Dec.add, check_nans.
  destruct a as [? ? ?|?|[]], b as [? ? ?|?|[]]; cbn [is_snan is_nan orb];
    decimal_raise.
Qed.

Lemma sub_raise (a b : Decimal) (ex : exn) :
  Dec.sub a b = Raise ex -> kind_of ex = KDecimalException.
Proof.
  unfold Dec.sub. destruct (check_nans a b) as [r|] eqn:Hn.
  - unfold check_nans in Hn.
    destruct (is_snan a || is_snan b); [injection Hn as <-; now intros [= <-]|].
    destruct (is_nan a || is_nan b); [injection Hn as <-|]; discriminate.
  - apply add_raise.
Qed.

Lemma mul_raise (a b : Decimal) (ex : exn) :
  Dec.mul a b = Raise ex -> kind_of ex = KDecimalException.
Proof.
  unfold Dec.mul, check_nans.
  destruct a as [? ? ?|?|[]], b as [? ? ?|?|[]]; cbn [is_snan is_nan orb];
    decimal_raise.
Qed.

Lemma truediv_zero_raises (s1 s2 : bool) (c1 : N) (e1 e2 : Z) :
  exists sg, Dec.truediv (Fin s1 c1 e1) (Fin s2 0 e2)
             = Raise (DecimalException sg).
Proof.
  unfold Dec.truediv. cbn. destruct (c1 =? 0)%N; eexists; reflexivity.
Qed.

Lemma eq_zero_true (b : Decimal) :
  eq_zero b = Ok true <-> exists s e, b = Fin s 0 e.
Proof.
  split.
  - destruct b as [s c e| |[]]; try discriminate. cbn.
    destruct (N.eqb_spec c 0) as [->|]; [|discriminate]. now exists s, e.
  - intros (s & e & ->). reflexivity.
Qed.

End DecFacts.

(** ** The operation classes on decimals *)

Lemma execute_unfold (a b : Dec.Decimal) :
  Addition.execute a b = Dec.add a b
  /\ Subtraction.execute a b = Dec.sub a b
  /\ Multiplication.execute a b = Dec.mul a b.
Proof. repeat split. Qed.

Lemma Division_execute_cases (a b : Dec.Decimal) :
  Division.execute a b =
  match Dec.eq_zero b with
  | Ok true => Raise (ValidationError "Division by zero is not allowed")
  | Ok false => Dec.truediv a b
  | Raise e => Raise e
  end.
Proof.
  unfold Division.execute, Division.validate_operands,
    Operation.validate_operands. cbn.
  destruct (Dec.eq_zero b) as [[|]|e]; reflexivity.
Qed.

(** C5, as the code has it: the three non-dividing variants return what
    decimal [+], [-] and [*] yield in the default context and never raise a
    validation failure; for finite operands the result is the exact sum,
    difference or product whenever that number is representable in the
    context (at most 28 significant digits). *)
Theorem non_dividing_execute (a b : Dec.Decimal) :
  (Addition.execute a b = Dec.add a b
   /\ Subtraction.execute a b = Dec.sub a b
   /\ Multiplication.execute a b = Dec.mul a b)
  /\ (~ raises (Addition.execute a b) KValidationError
      /\ ~ raises (Subtraction.execute a b) KValidationError
      /\ ~ raises (Multiplication.execute a b) KValidationError)
  /\ forall x y : Q, Dec.value a = Some x -> Dec.value b = Some y ->
     (Dec.representable (x + y) ->
      exists r v, Addition.execute a b = Ok r
                  /\ Dec.value r = Some v /\ (v == x + y)%Q)
     /\ (Dec.representable (x - y) ->
         exists r v, Subtraction.execute a b = Ok r
                     /\ Dec.value r = Some v /\ (v == x - y)%Q)
     /\ (Dec.representable (x * y) ->
         exists r v, Multiplication.execute a b = Ok r
                     /\ Dec.value r = Some v /\ (v == x * y)%Q).
Proof.
  destruct (execute_unfold a b) as (Ha & Hs & Hm).
  split; [now rewrite Ha, Hs, Hm|]. split.
  - rewrite Ha, Hs, Hm. repeat split; intros (e & He & Hk).
    + apply DecFacts.add_raise in He. congruence.
    + apply DecFacts.sub_raise in He. congruence.
    + apply DecFacts.mul_raise in He. congruence.
  - intros x y Hx Hy. rewrite Ha, Hs, Hm. repeat split; intros Hrep.
    + now apply DecFacts.add_exact.
    + now apply DecFacts.sub_exact.
    + now apply DecFacts.mul_exact.
Qed.

Lemma non_dividing_execute_1e10 :
  Dec.representable (inject_Z 1 * Dec.Qpow10 10 + inject_Z 1 * Dec.Qpow10 10)
  /\ exists r v,
       Addition.execute (Dec.Fin false 1 10) (Dec.Fin false 1 10) = Ok r
       /\ Dec.value r = Some v
       /\ (v == inject_Z 1 * Dec.Qpow10 10 + inject_Z 1 * Dec.Qpow10 10)%Q.
Proof.
  assert (Hrep : Dec.representable
                   (inject_Z 1 * Dec.Qpow10 10 + inject_Z 1 * Dec.Qpow10 10)).
  { exists (Dec.Fin false 2 10), (inject_Z 2 * Dec.Qpow10 10)%Q.
    split; [|split; [reflexivity | vm_compute; reflexivity]].
    repeat split; vm_compute; congruence. }
  split; [exact Hrep|].
  destruct (non_dividing_execute (Dec.Fin false 1 10) (Dec.Fin false 1 10))
    as (_ & _ & Hex).
  destruct (Hex _ _ eq_refl eq_refl) as (Hadd & _ & _).
  exact (Hadd Hrep).
Defined.

(** C5 as stated fails: 1E+28 + 1 needs 29 digits, and [Addition.execute]
    returns 1.000000000000000000000000000E+28. *)
Lemma addition_rounds_beyond_precision :
  exists r x y v,
    Addition.execute (Dec.Fin false 1 28) (Dec.Fin false 1 0) = Ok r
    /\ Dec.value (Dec.Fin false 1 28) = Some x
    /\ Dec.value (Dec.Fin false 1 0) = Some y
    /\ Dec.value r = Some v
    /\ ~ (v == x + y)%Q.
Proof.
  eexists (Dec.Fin false 1000000000000000000000000000 1), _, _, _.
  split; [vm_compute; reflexivity|]. repeat (split; [reflexivity|]).
  intros H. vm_compute in H. discriminate.
Qed.

(** C1, as the code has it: a zero divisor makes [Division.execute] raise
    the validation failure for every dividend, before the division (which
    would itself raise a decimal signal on a finite dividend) is attempted;
    otherwise it returns what decimal [/] yields in the default context,
    which for finite operands is the exact quotient whenever that number
    is representable in the context. *)
Theorem division_execute (a b : Dec.Decimal) :
  (Dec.eq_zero b = Ok true ->
   Division.execute a b =
     Raise (ValidationError "Division by zero is not allowed")
   /\ forall s c e, a = Dec.Fin s c e ->
      exists sg, Dec.truediv a b = Raise (DecimalException sg))
  /\ (Dec.eq_zero b = Ok false -> Division.execute a b = Dec.truediv a b)
  /\ forall x y : Q, Dec.value a = Some x -> Dec.value b = Some y ->
     ~ (y == 0)%Q -> Dec.representable (x / y) ->
     exists r v, Division.execute a b = Ok r
                 /\ Dec.value r = Some v /\ (v == x / y)%Q.
Proof.
  rewrite Division_execute_cases. split; [|split].
  - intros Hz. rewrite Hz. split; [reflexivity|].
    apply DecFacts.eq_zero_true in Hz as (s2 & e2 & ->).
    intros s c e ->. apply DecFacts.truediv_zero_raises.
  - now intros ->.
  - intros x y Hx Hy Hnz Hrep.
    destruct b as [s2 c2 e2| |]; try discriminate.
    cbn [Dec.eq_zero]. destruct (N.eqb_spec c2 0) as [->|Hc2].
    + exfalso. apply Hnz. injection Hy as <-.
      rewrite DecFacts.signed_zero. apply Qmult_0_l.
    + now apply DecFacts.truediv_exact.
Qed.

Lemma division_execute_examples :
  Division.execute (Dec.Fin false 5 0) (Dec.Fin false 0 0) =
    Raise (ValidationError "Division by zero is not allowed")
  /\ Dec.truediv (Dec.Fin false 5 0) (Dec.Fin false 0 0) =
       Raise (DecimalException DivisionByZero)
  /\ Dec.representable
       (inject_Z 55 * Dec.Qpow10 (-1) / (inject_Z 2 * Dec.Qpow10 0))
  /\ exists r v,
       Division.execute (Dec.Fin false 55 (-1)) (Dec.Fin false 2 0) = Ok r
       /\ Dec.value r = Some v
       /\ (v == inject_Z 55 * Dec.Qpow10 (-1) / (inject_Z 2 * Dec.Qpow10 0))%Q.
Proof.
  destruct (division_execute (Dec.Fin false 5 0) (Dec.Fin false 0 0))
    as (Hzero & _ & _).
  destruct (division_execute (Dec.Fin false 55 (-1)) (Dec.Fin false 2 0))
    as (_ & _ & Hexact).
  assert (Hrep : Dec.representable
            (inject_Z 55 * Dec.Qpow10 (-1) / (inject_Z 2 * Dec.Qpow10 0))).
  { exists (Dec.Fin false 275 (-2)), (inject_Z 275 * Dec.Qpow10 (-2))%Q.
    split; [|split; [reflexivity | vm_compute; reflexivity]].
    repeat split; vm_compute; congruence. }
  assert (Hnz : ~ (inject_Z 2 * Dec.Qpow10 0 == 0)%Q)
    by (intros H; vm_compute in H; discriminate).
  split; [exact (proj1 (Hzero eq_refl))|].
  split; [vm_compute; reflexivity|]. split; [exact Hrep|].
  exact (Hexact _ _ eq_refl eq_refl Hnz Hrep).
Defined.

(** C1 as stated fails: 1 / 3 is returned as
    0.3333333333333333333333333333, which is not the quotient. *)
Lemma division_rounds_quotient :
  exists r x y v,
    Dec.eq_zero (Dec.Fin false 3 0) = Ok false
    /\ Division.execute (Dec.Fin false 1 0) (Dec.Fin false 3 0) = Ok r
    /\ Dec.value (Dec.Fin false 1 0) = Some x
    /\ Dec.value (Dec.Fin false 3 0) = Some y
    /\ Dec.value r = Some v
    /\ ~ (v == x / y)%Q.
Proof.
  eexists (Dec.Fin false 3333333333333333333333333333 (-28)), _, _, _.
  split; [reflexivity|]. split; [vm_compute; reflexivity|].
  repeat (split; [reflexivity|]).
  intros H. vm_compute in H. discriminate.
Qed.

(** ** Standalone functions against the classes *)

Lemma bind_ret_id {A} (m : result A) : (x ← m; mret x) = m.
Proof. now destruct m. Qed.

(** C7, as the code has it: the standalone functions and the class methods
    compute the same for every operand type; the two division paths agree
    when [b == 0] is false or raises, and when it is true they raise a
    [ValueError] and a [ValidationError] with different messages. *)
Theorem standalone_agrees_with_classes {T} `{Number T} (a b : T) :
  add a b = Addition.execute a b
  /\ subtract a b = Subtraction.execute a b
  /\ multiply a b = Multiplication.execute a b
  /\ (py_eq_zero b = Ok false -> divide a b = Division.execute a b)
  /\ (py_eq_zero b = Ok true ->
      divide a b = Raise (ValueError "Cannot divide by zero!")
      /\ Division.execute a b =
           Raise (ValidationError "Division by zero is not allowed"))
  /\ (forall e, py_eq_zero b = Raise e ->
      divide a b = Raise e /\ Division.execute a b = Raise e).
Proof.
  unfold add, subtract, multiply, divide, Addition.execute,
    Subtraction.execute, Multiplication.execute, Division.execute,
    Division.validate_operands, Operation.validate_operands.
  rewrite !bind_ret_id.
  repeat split; try (intros; rewrite ?bind_ret_id; simpl);
    try match goal with H : py_eq_zero b = _ |- _ => rewrite H end;
    simpl; rewrite ?bind_ret_id; reflexivity.
Qed.

Lemma standalone_agrees_with_classes_decimal :
  add (Dec.Fin false 6 0) (Dec.Fin false 2 0) = Ok (Dec.Fin false 8 0)
  /\ Dec.eq_zero (Dec.Fin false 2 0) = Ok false
  /\ divide (Dec.Fin false 6 0) (Dec.Fin false 2 0) =
     Division.execute (Dec.Fin false 6 0) (Dec.Fin false 2 0)
  /\ Division.execute (Dec.Fin false 6 0) (Dec.Fin false 2 0) =
     Ok (Dec.Fin false 3 0).
Proof.
  destruct (standalone_agrees_with_classes (Dec.Fin false 6 0) (Dec.Fin false 2 0))
    as (_ & _ & _ & Hdiv & _).
  assert (Hnz : Dec.eq_zero (Dec.Fin false 2 0) = Ok false) by reflexivity.
  split; [vm_compute; reflexivity|]. split; [exact Hnz|].
  split; [exact (Hdiv Hnz)|]. vm_compute; reflexivity.
Defined.

(** C7 as stated fails: the two divide-by-zero paths differ in more than
    the error kind, their messages differ too. *)
Lemma divide_by_zero_messages_differ :
  exists e1 e2,
    divide (Dec.Fin false 5 0) (Dec.Fin false 0 0) = Raise e1
    /\ Division.execute (Dec.Fin false 5 0) (Dec.Fin false 0 0) = Raise e2
    /\ kind_of e1 = KValueError
    /\ kind_of e2 = KValidationError
    /\ message_of e1 <> message_of e2.
Proof.
  exists (ValueError "Cannot divide by zero!"),
         (ValidationError "Division by zero is not allowed").
  repeat split; try reflexivity. discriminate.
Qed.

(** ** Running the factory methods *)

Lemma run_register (name : string) (v : pyobj) (w : world) :
  run (OperationFactory.register_operation name v) w =
  match issubclass v Operation_cls with
  | Raise e => (Raise e, w)
  | Ok false =>
      (Raise (TypeError "Operation class must inherit from Operation"), w)
  | Ok true =>
      (Ok tt, {| _operations := <[lower name := v]> (_operations w);
                 heap_next := heap_next w |})
  end.
Proof.
  unfold OperationFactory.register_operation, mbind, M_bind; simpl.
  destruct (issubclass v Operation_cls) as [[|]|e]; reflexivity.
Qed.

Lemma run_create (name : string) (w : world) :
  run (OperationFactory.create_operation name) w =
  let operation_class := dict_get (_operations w) (lower name) in
  if truthy operation_class
  then run (call operation_class) w
  else (Raise (ValueError ("Unknown operation: " +:+ name)), w).
Proof.
  unfold OperationFactory.create_operation, mbind, M_bind; simpl.
  destruct (truthy _); reflexivity.
Qed.

Lemma run_create_none (name : string) (w : world) :
  _operations w !! lower name = None ->
  run (OperationFactory.create_operation name) w =
    (Raise (ValueError ("Unknown operation: " +:+ name)), w).
Proof. intros H. rewrite run_create. unfold dict_get. now rewrite H. Qed.

Lemma run_create_class (name : string) (c : pyclass) (w : world) :
  _operations w !! lower name = Some (PyClass c) ->
  run (OperationFactory.create_operation name) w = run (instantiate c) w.
Proof. intros H. rewrite run_create. unfold dict_get. now rewrite H. Qed.

Lemma run_instantiate (c : pyclass) (w : world) :
  run (instantiate c) w =
  match cls_abstractmethods c with
  | [] =>
      let w' := {| _operations := _operations w;
                   heap_next := S (heap_next w) |} in
      match cls_init c with
      | Ok _ => (Ok (PyObject {| obj_id := heap_next w; obj_class := c |}), w')
      | Raise e => (Raise e, w')
      end
  | m :: ms =>
      (Raise (TypeError ("Can't instantiate abstract class " +:+ cls_name c
                        +:+ " with abstract method"
                        +:+ (if decide (length (m :: ms) = 1%nat) then "" else "s")
                        +:+ " " +:+ String.concat ", " (m :: ms))), w)
  end.
Proof.
  unfold instantiate. destruct (cls_abstractmethods c); [|reflexivity].
  unfold mbind, M_bind; simpl. destruct (cls_init c); reflexivity.
Qed.

Lemma conforms_class (v : pyobj) :
  conforms v -> exists c, v = PyClass c /\ cls_name Operation_cls ∈ cls_mro c.
Proof.
  unfold conforms, issubclass. destruct v as [| | |c|]; try discriminate.
  intros H. exists c. split; [reflexivity|].
  injection H as H. now apply bool_decide_eq_true in H.
Qed.

Lemma class_conforms (c : pyclass) :
  cls_name Operation_cls ∈ cls_mro c -> conforms (PyClass c).
Proof.
  intros H. unfold conforms, issubclass. f_equal. now apply bool_decide_eq_true.
Qed.

(** The registry is never touched by [create_operation]. *)
Lemma create_operations_unchanged (name : string) (w : world) :
  _operations (snd (run (OperationFactory.create_operation name) w)) =
  _operations w.
Proof.
  rewrite run_create; simpl. destruct (truthy _); [|reflexivity].
  destruct (dict_get _ _) as [| | |c|]; try reflexivity.
  simpl. rewrite run_instantiate.
  destruct (cls_abstractmethods c); [|reflexivity].
  simpl. destruct (cls_init c); reflexivity.
Qed.

Lemma initial_registry_ok : registry_ok initial_world.
Proof.
  intros k v. unfold initial_world, OperationFactory.initial_operations; simpl.
  rewrite !lookup_insert, lookup_empty.
  repeat case_decide; subst; try discriminate;
    intros [= <-]; split; reflexivity.
Qed.

Lemma step_registry_ok (w w' : world) :
  step w w' -> registry_ok w -> registry_ok w'.
Proof.
  intros [name v w0|name w0] Hok.
  - rewrite run_register.
    destruct (issubclass v Operation_cls) as [[|]|e] eqn:Hsub; simpl; try exact Hok.
    intros k v'. simpl. rewrite lookup_insert. case_decide.
    + subst k. intros [= <-]. split; [apply lower_idempotent | exact Hsub].
    + apply Hok.
  - intros k v. rewrite create_operations_unchanged. apply Hok.
Qed.

Lemma reachable_registry_ok (w : world) : reachable w -> registry_ok w.
Proof.
  unfold reachable. revert w.
  apply (rtc_ind_r registry_ok initial_world); [apply initial_registry_ok|].
  intros y z _ Hstep IH. exact (step_registry_ok y z Hstep IH).
Qed.

(** ** The factory *)

(** C3: a name without registry entry (after lowercasing) makes
    [create_operation] raise the unknown-operation [ValueError], whose
    message contains the name as it was requested; the state is untouched. *)
Theorem create_operation_unknown (w : world) (name : string) :
  _operations w !! lower name = None ->
  run (OperationFactory.create_operation name) w =
    (Raise (ValueError ("Unknown operation: " +:+ name)), w)
  /\ contains ("Unknown operation: " +:+ name) name.
Proof.
  intros Hnone. split; [now apply run_create_none | apply contains_suffix].
Qed.

Lemma create_operation_unknown_bogus :
  _operations initial_world !! lower "bogus" = None
  /\ run (OperationFactory.create_operation "bogus") initial_world =
       (Raise (ValueError "Unknown operation: bogus"), initial_world)
  /\ contains "Unknown operation: bogus" "bogus".
Proof.
  assert (H : _operations initial_world !! lower "bogus" = None)
    by (vm_compute; reflexivity).
  split; [exact H|]. exact (create_operation_unknown initial_world "bogus" H).
Defined.

(** C8: [create_operation] never changes the registry; when it returns,
    the only change of state is the allocation of the returned object, and
    when the name is unknown the state is exactly the one before. *)
Theorem create_operation_frame (w : world) (name : string) :
  let r := run (OperationFactory.create_operation name) w in
  _operations (snd r) = _operations w
  /\ (forall v, fst r = Ok v ->
        exists c, v = PyObject {| obj_id := heap_next w; obj_class := c |}
                  /\ heap_next (snd r) = S (heap_next w))
  /\ (_operations w !! lower name = None -> snd r = w).
Proof.
  cbv zeta. split; [apply create_operations_unchanged|]. split.
  - intros v. rewrite run_create; simpl.
    destruct (truthy _); [|discriminate].
    destruct (dict_get _ _) as [| | |c|]; try discriminate.
    simpl. rewrite run_instantiate.
    destruct (cls_abstractmethods c); [|discriminate].
    simpl. destruct (cls_init c); [|discriminate].
    intros [= <-]. now exists c.
  - intros Hnone. now rewrite (run_create_none name w Hnone).
Qed.

Lemma create_operation_frame_add :
  let r := run (OperationFactory.create_operation "ADD") initial_world in
  fst r = Ok (PyObject {| obj_id := 0; obj_class := Addition_cls |})
  /\ _operations (snd r) = _operations initial_world
  /\ heap_next (snd r) = 1%nat.
Proof.
  pose proof (create_operation_frame initial_world "ADD") as [Hreg _].
  split; [vm_compute; reflexivity|]. split; [exact Hreg|].
  vm_compute; reflexivity.
Defined.

(** C2, as the code has it: an argument for which
    [issubclass(v, Operation)] is not true (not a class, or a class that
    does not inherit from [Operation]) makes [register_operation] raise a
    [TypeError] and leaves the state as it was, so that every later
    [create_operation] behaves as before; in particular a name that was
    unknown is still unknown. *)
Theorem register_operation_rejects (w : world) (name : string) (v : pyobj) :
  ~ conforms v ->
  let r := run (OperationFactory.register_operation name v) w in
  raises (fst r) KTypeError
  /\ snd r = w
  /\ (forall n, run (OperationFactory.create_operation n) (snd r) =
                run (OperationFactory.create_operation n) w)
  /\ (_operations w !! lower name = None ->
      run (OperationFactory.create_operation name) (snd r) =
        (Raise (ValueError ("Unknown operation: " +:+ name)), w)).
Proof.
  intros Hnc. cbv zeta. rewrite run_register.
  assert (Hr : exists e, kind_of e = KTypeError /\
    match issubclass v Operation_cls with
    | Ok true =>
        (Ok tt, {| _operations := <[lower name := v]> (_operations w);
                   heap_next := heap_next w |})
    | Ok false =>
        (Raise (TypeError "Operation class must inherit from Operation"), w)
    | Raise e => (Raise e, w)
    end = (Raise e, w)).
  { unfold conforms in Hnc.
    destruct v as [| | |c|]; simpl in *; try (eexists; split; [|reflexivity]; reflexivity).
    destruct (bool_decide _); [now destruct Hnc|].
    eexists; split; [|reflexivity]; reflexivity. }
  destruct Hr as (e & Hk & ->). simpl.
  split; [now exists e|]. split; [reflexivity|]. split; [reflexivity|].
  intros Hnone. now apply run_create_none.
Qed.

Lemma register_operation_rejects_bad :
  ~ conforms (PyClass InvalidOperation_cls)
  /\ run (OperationFactory.register_operation "bad" (PyClass InvalidOperation_cls))
         initial_world =
       (Raise (TypeError "Operation class must inherit from Operation"),
        initial_world)
  /\ run (OperationFactory.create_operation "bad") initial_world =
       (Raise (ValueError "Unknown operation: bad"), initial_world).
Proof.
  assert (Hnc : ~ conforms (PyClass InvalidOperation_cls))
    by (vm_compute; discriminate).
  assert (Hnone : _operations initial_world !! lower "bad" = None)
    by (vm_compute; reflexivity).
  destruct (register_operation_rejects initial_world "bad" _ Hnc)
    as (_ & Hw & _ & Hcreate).
  split; [exact Hnc|]. split; [vm_compute; reflexivity|].
  specialize (Hcreate Hnone). rewrite Hw in Hcreate. exact Hcreate.
Defined.

(** C10: when the argument is not a class, the conformance check itself
    raises a [TypeError]; [register_operation] fails with that error and the
    state is unchanged. *)
Theorem register_operation_non_class (w : world) (name : string) (v : pyobj) :
  (forall c, v <> PyClass c) ->
  issubclass v Operation_cls =
    Raise (TypeError "issubclass() arg 1 must be a class")
  /\ run (OperationFactory.register_operation name v) w =
       (Raise (TypeError "issubclass() arg 1 must be a class"), w).
Proof.
  intros Hv.
  assert (H : issubclass v Operation_cls =
              Raise (TypeError "issubclass() arg 1 must be a class")).
  { destruct v as [| | |c|]; try reflexivity. now destruct (Hv c). }
  split; [exact H|]. rewrite run_register. now rewrite H.
Qed.

Lemma register_operation_non_class_instance :
  (forall c, PyObject {| obj_id := 0; obj_class := Addition_cls |} <> PyClass c)
  /\ run (OperationFactory.register_operation "plus"
            (PyObject {| obj_id := 0; obj_class := Addition_cls |})) initial_world =
       (Raise (TypeError "issubclass() arg 1 must be a class"), initial_world)
  /\ run (OperationFactory.register_operation "plus" (PyStr "Addition"))
         initial_world =
       (Raise (TypeError "issubclass() arg 1 must be a class"), initial_world).
Proof.
  assert (H1 : forall c,
    PyObject {| obj_id := 0; obj_class := Addition_cls |} <> PyClass c)
    by discriminate.
  assert (H2 : forall c, PyStr "Addition" <> PyClass c) by discriminate.
  split; [exact H1|]. split.
  - exact (proj2 (register_operation_non_class initial_world "plus" _ H1)).
  - exact (proj2 (register_operation_non_class initial_world "plus" _ H2)).
Defined.

(** C9: an abstract subclass of [Operation] passes the conformance check:
    [register_operation] succeeds and stores it, and the failure only
    shows when [create_operation] tries to instantiate it. *)
Theorem register_abstract_accepted (w : world) (name : string) (c : pyclass) :
  cls_name Operation_cls ∈ cls_mro c ->
  cls_abstractmethods c <> [] ->
  let r := run (OperationFactory.register_operation name (PyClass c)) w in
  fst r = Ok tt
  /\ _operations (snd r) !! lower name = Some (PyClass c)
  /\ raises (fst (run (OperationFactory.create_operation name) (snd r)))
            KTypeError
  /\ snd (run (OperationFactory.create_operation name) (snd r)) = snd r.
Proof.
  intros Hsub Habs. cbv zeta. rewrite run_register.
  rewrite (class_conforms c Hsub). cbn [fst snd _operations].
  split; [reflexivity|]. split; [apply lookup_insert_eq|].
  rewrite (run_create_class name c) by apply lookup_insert_eq.
  rewrite run_instantiate.
  destruct (cls_abstractmethods c) as [|m ms]; [now destruct Habs|].
  split; [|reflexivity]. eexists; split; reflexivity.
Qed.

Lemma register_abstract_accepted_Operation :
  let r := run (OperationFactory.register_operation "operation"
                  (PyClass Operation_cls)) initial_world in
  fst r = Ok tt
  /\ _operations (snd r) !! "operation" = Some (PyClass Operation_cls)
  /\ fst (run (OperationFactory.create_operation "operation") (snd r)) =
       Raise (TypeError
         "Can't instantiate abstract class Operation with abstract method execute").
Proof.
  assert (Hsub : cls_name Operation_cls ∈ cls_mro Operation_cls)
    by (simpl; repeat constructor).
  assert (Habs : cls_abstractmethods Operation_cls <> []) by discriminate.
  destruct (register_abstract_accepted initial_world "operation" _ Hsub Habs)
    as (H1 & H2 & _).
  cbv zeta. split; [exact H1|]. split; [exact H2|]. vm_compute; reflexivity.
Defined.

Lemma instantiate_concrete (c : pyclass) (w : world) :
  cls_abstractmethods c = [] -> cls_init c = Ok tt ->
  run (instantiate c) w =
    (Ok (PyObject {| obj_id := heap_next w; obj_class := c |}),
     {| _operations := _operations w; heap_next := S (heap_next w) |}).
Proof. intros Ha Hi. rewrite run_instantiate. now rewrite Ha, Hi. Qed.

Lemma reachable_register (name : string) (v : pyobj) (w : world) :
  reachable w ->
  reachable (snd (run (OperationFactory.register_operation name v) w)).
Proof. intros H. eapply rtc_r; [exact H | constructor]. Qed.







(** C2 as stated fails: [Shape_cls] leaves [execute] abstract, so it does
    not conform to the capability set of [Operation]; yet
    [register_operation] does not reject it and stores it, and the failure
    comes at use time, as a [TypeError] of [create_operation] instead of
    the unknown-operation error. *)
Lemma abstract_class_rejected_at_use_time :
  let r := run (OperationFactory.register_operation "shape" (PyClass Shape_cls))
               initial_world in
  execute_is_abstract Shape_cls
  /\ ~ implements_operation Shape_cls
  /\ _operations initial_world !! "shape" = None
  /\ fst r = Ok tt
  /\ _operations (snd r) !! "shape" = Some (PyClass Shape_cls)
  /\ fst (run (OperationFactory.create_operation "shape") (snd r)) =
       Raise (TypeError
         "Can't instantiate abstract class Shape with abstract method execute").
Proof.
  cbv zeta. split; [unfold execute_is_abstract; simpl; repeat constructor|].
  split; [intros [_ H]; discriminate H|].
  repeat split; vm_compute; reflexivity.
Qed.

(** ** The scenarios of the unit tests *)

Example addition_5_3 :
  Addition.execute (Dec.Fin false 5 0) (Dec.Fin false 3 0) = Ok (Dec.Fin false 8 0).
Proof. vm_compute; reflexivity. Qed.

Example subtraction_neg5_neg3 :
  Subtraction.execute (Dec.Fin true 5 0) (Dec.Fin true 3 0) = Ok (Dec.Fin true 2 0).
Proof. vm_compute; reflexivity. Qed.

Example multiplication_decimals :
  Multiplication.execute (Dec.Fin false 55 (-1)) (Dec.Fin false 33 (-1)) =
  Ok (Dec.Fin false 1815 (-2)).
Proof. vm_compute; reflexivity. Qed.

Example division_6_2 :
  Division.execute (Dec.Fin false 6 0) (Dec.Fin false 2 0) = Ok (Dec.Fin false 3 0).
Proof. vm_compute; reflexivity. Qed.

Example subtraction_large :
  Subtraction.execute (Dec.Fin false 1 10) (Dec.Fin false 1 9) =
  Ok (Dec.Fin false 9 9).
Proof. vm_compute; reflexivity. Qed.

Example multiplication_large :
  Multiplication.execute (Dec.Fin false 1 5) (Dec.Fin false 1 5) =
  Ok (Dec.Fin false 1 10).
Proof. vm_compute; reflexivity. Qed.

Example str_of_created_operation :
  match fst (run (OperationFactory.create_operation "Multiply") initial_world) with
  | Ok (PyObject o) => __str__ o = "Multiplication"
  | _ => False
  end.
Proof. vm_compute; reflexivity. Qed.

(** * Further properties *)

(** ** Decimal results *)

Module DecInv.
Import Dec.
Import DecFacts.

Lemma round_half_even_le (c : N) (k : Z) :
  (round_half_even c k <= c / pow10 k + 1)%N.
Proof.
  unfold round_half_even. destruct (_ || _); lia.
Qed.

Lemma div_pow10_lt (c : N) (n k : Z) :
  0 <= k -> k <= n -> (c < pow10 n)%N -> (c / pow10 k < pow10 (n - k))%N.
Proof.
  intros Hk Hn Hc. apply N.Div0.div_lt_upper_bound.
  rewrite <- pow10_add by lia. now replace (k + (n - k)) with n by lia.
Qed.

Lemma lt_pow10_prec (c : N) : ndigits c <= prec -> (c < pow10 prec)%N.
Proof.
  intros H. destruct (ndigits_spec c) as (_ & Hlt & _).
  pose proof (pow10_le _ _ H). lia.
Qed.

(** Whatever [_fix] returns fits the context. *)
Lemma fix_in_context (s : bool) (c : N) (e : Z) (d : Decimal) :
  _fix s c e = Ok d -> in_context d.
Proof.
  unfold _fix.
  destruct (N.eqb_spec c 0) as [->|Hc].
  { intros [= <-]. cbn. change (ndigits 0) with 1.
    split; [apply pow10_pos|]. unfold Etiny, Emin, Emax, prec. lia. }
  destruct (Z.ltb_spec Etop (ndigits c + e - prec)) as [|Hov]; [discriminate|].
  set (exp_min := Z.max (ndigits c + e - prec) Etiny).
  destruct (Z.ltb_spec e exp_min) as [Hround|Hkeep].
  2:{ intros [= <-]. cbn. unfold exp_min in Hkeep.
      split; [apply lt_pow10_prec; lia|]. unfold Etop in Hov. lia. }
  assert (Hcoeff : exists c1 e1,
    (if ndigits c + e - exp_min <? 0 then (1%N, exp_min - 1) else (c, e))
      = (c1, e1)
    /\ (round_half_even c1 (exp_min - e1) <= pow10 prec)%N).
  { destruct (Z.ltb_spec (ndigits c + e - exp_min) 0) as [Hneg|Hpos].
    - exists 1%N, (exp_min - 1). split; [reflexivity|].
      replace (exp_min - (exp_min - 1)) with 1 by lia.
      vm_compute. discriminate.
    - exists c, e. split; [reflexivity|].
      pose proof (round_half_even_le c (exp_min - e)) as Hle.
      destruct (ndigits_spec c) as (_ & Hlt & _).
      pose proof (div_pow10_lt c (ndigits c) (exp_min - e)
                    ltac:(lia) ltac:(lia) Hlt) as Hq.
      assert (Hd : ndigits c - (exp_min - e) <= prec) by (unfold exp_min; lia).
      pose proof (pow10_le _ _ Hd). lia. }
  destruct Hcoeff as (c1 & e1 & -> & Hle).
  set (coeff := round_half_even c1 (exp_min - e1)) in *.
  destruct (Z.ltb_spec prec (ndigits coeff)) as [Hcarry|Hfit].
  - destruct (Z.ltb_spec Etop (exp_min + 1)) as [|Hok]; [discriminate|].
    intros [= <-]. cbn.
    assert (Hlt : (coeff / 10 < pow10 prec)%N).
    { apply N.Div0.div_lt_upper_bound.
      pose proof (pow10_pos prec). lia. }
    split; [exact Hlt|].
    pose proof (ndigits_le_prec _ Hlt).
    unfold exp_min, Etop, Etiny, Emin, Emax, prec in *. lia.
  - destruct (Z.ltb_spec Etop exp_min) as [|Hok]; [discriminate|].
    intros [= <-]. cbn.
    split; [now apply lt_pow10_prec|].
    unfold exp_min, Etop, Etiny, Emin, Emax, prec in *. lia.
Qed.

Lemma add_in_context (a b r : Decimal) :
  Dec.add a b = Ok r -> finite_in_context r.
Proof.
  unfold Dec.add, check_nans.
  destruct a as [s1 c1 e1|s1|[]], b as [s2 c2 e2|s2|[]];
    cbn [is_snan is_nan orb]; try discriminate;
    try (intros [= <-]; exact I);
    try (destruct (eqb s1 s2); [intros [= <-]; exact I | discriminate]).
  intros H. apply fix_in_context in H. destruct r; [exact H | exact I | exact I].
Qed.

Lemma check_nans_cases (a b : Decimal) :
  check_nans a b = None
  \/ check_nans a b = Some (Ok (NaN false))
  \/ check_nans a b = Some (Raise (DecimalException InvalidOperation)).
Proof.
  unfold check_nans.
  destruct (is_snan a || is_snan b); [now right; right|].
  destruct (is_nan a || is_nan b); [now right; left | now left].
Qed.

Lemma sub_in_context (a b r : Decimal) :
  Dec.sub a b = Ok r -> finite_in_context r.
Proof.
  unfold Dec.sub.
  destruct (check_nans_cases a b) as [->|[->| ->]];
    [apply add_in_context | intros [= <-]; exact I | discriminate].
Qed.

Lemma mul_in_context (a b r : Decimal) :
  Dec.mul a b = Ok r -> finite_in_context r.
Proof.
  unfold Dec.mul, check_nans.
  destruct a as [s1 c1 e1|s1|[]], b as [s2 c2 e2|s2|[]];
    cbn [is_snan is_nan orb]; try discriminate;
    try (intros [= <-]; exact I);
    try (destruct (_ =? _)%N; [discriminate | intros [= <-]; exact I]).
  intros H. apply fix_in_context in H. destruct r; [exact H | exact I | exact I].
Qed.

Lemma truediv_in_context (a b r : Decimal) :
  Dec.truediv a b = Ok r -> finite_in_context r.
Proof.
  unfold Dec.truediv, check_nans.
  destruct a as [s1 c1 e1|s1|[]], b as [s2 c2 e2|s2|[]];
    cbn [is_snan is_nan orb]; try discriminate;
    try (intros [= <-]; exact I).
  - destruct (c2 =? 0)%N; [destruct (c1 =? 0)%N; discriminate|].
    destruct (c1 =? 0)%N.
    + intros H. apply fix_in_context in H. destruct r; [exact H | exact I | exact I].
    + destruct (if 0 <=? _ then _ else _) as [coeff remainder].
      destruct (if (remainder =? 0)%N then _ else _) as [coeff' exp'].
      intros H. apply fix_in_context in H.
      destruct r; [exact H | exact I | exact I].
  - intros [= <-]. cbn. split; [apply pow10_pos|].
    change (ndigits 0) with 1. unfold Etiny, Emin, Emax, prec. lia.
Qed.


Lemma add_comm (a b : Decimal) :
  is_nan a = false -> is_nan b = false -> Dec.add a b = Dec.add b a.
Proof.
  destruct a as [s1 c1 e1|s1|g1], b as [s2 c2 e2|s2|g2];
    try discriminate; intros _ _; unfold Dec.add; cbn; try reflexivity.
  - rewrite (Z.min_comm e2 e1), (andb_comm s2 s1), (Z.add_comm (signed s2 c2 * _)).
    reflexivity.
  - destruct s1, s2; reflexivity.
Qed.

Lemma mul_comm (a b : Decimal) :
  is_nan a = false -> is_nan b = false -> Dec.mul a b = Dec.mul b a.
Proof.
  destruct a as [s1 c1 e1|s1|g1], b as [s2 c2 e2|s2|g2];
    try discriminate; intros _ _; unfold Dec.mul; cbn;
    rewrite ?(xorb_comm s2 s1); try reflexivity.
  now rewrite (N.mul_comm c2 c1), (Z.add_comm e2 e1).
Qed.

Lemma fix_zero (s : bool) (e : Z) :
  _fix s 0 e = Ok (Fin s 0 (Z.min (Z.max e Etiny) Emax)).
Proof. reflexivity. Qed.

Lemma sub_self (s : bool) (c : N) (e : Z) :
  Dec.sub (Fin s c e) (Fin s c e) = Ok (Fin false 0 (Z.min (Z.max e Etiny) Emax)).
Proof.
  unfold Dec.sub, Dec.add; cbn.
  rewrite Z.min_id, Z.sub_diag. change (pow10 0) with 1%N.
  rewrite signed_negb.
  replace (signed s c * Z.of_N 1 + - signed s c * Z.of_N 1) with 0 by lia.
  cbn. now rewrite andb_negb_r.
Qed.

Lemma mul_zero_r (s1 s2 : bool) (c1 : N) (e1 e2 : Z) :
  Dec.mul (Fin s1 c1 e1) (Fin s2 0 e2) =
  Ok (Fin (xorb s1 s2) 0 (Z.min (Z.max (e1 + e2) Etiny) Emax)).
Proof. unfold Dec.mul; cbn. now rewrite N.mul_0_r. Qed.

Lemma truediv_raise (a b : Decimal) (ex : exn) :
  Dec.truediv a b = Raise ex ->
  (ex = DecimalException DivisionByZero /\ eq_zero b = Ok true)
  \/ ex = DecimalException InvalidOperation
  \/ ex = DecimalException Overflow.
Proof.
  unfold Dec.truediv, check_nans.
  destruct a as [s1 c1 e1|s1|[]], b as [s2 c2 e2|s2|[]];
    cbn [is_snan is_nan orb eq_zero]; try discriminate;
    try (intros [= <-]; right; left; reflexivity).
  destruct (c2 =? 0)%N.
  - destruct (c1 =? 0)%N; intros [= <-]; [right; left | left]; easy.
  - destruct (c1 =? 0)%N.
    + intros H. apply fix_raise in H. now right; right.
    + destruct (if 0 <=? _ then _ else _) as [coeff remainder].
      destruct (if (remainder =? 0)%N then _ else _) as [coeff' exp'].
      intros H. apply fix_raise in H. now right; right.
Qed.

Lemma in_context_representable (d : Decimal) (x : Q) :
  in_context d -> value d = Some x -> representable x.
Proof. intros Hc Hv. exists d, x. split; [exact Hc|]. split; [exact Hv|reflexivity]. Qed.

Lemma value_in_context (r : Decimal) (v : Q) :
  finite_in_context r -> value r = Some v -> in_context r.
Proof. destruct r; [now intros | discriminate | discriminate]. Qed.

End DecInv.

(** ** The arithmetic variants, further *)

(** X1: a finite value returned by any of the four [execute] methods fits
    the context: at most 28 digits, exponent and adjusted exponent within
    the context's range. *)
Theorem execute_result_in_context (a b : Dec.Decimal) (s : bool) (c : N) (e : Z) :
  Addition.execute a b = Ok (Dec.Fin s c e)
  \/ Subtraction.execute a b = Ok (Dec.Fin s c e)
  \/ Multiplication.execute a b = Ok (Dec.Fin s c e)
  \/ Division.execute a b = Ok (Dec.Fin s c e) ->
  (c < Dec.pow10 Dec.prec)%N
  /\ Dec.Etiny <= e
  /\ Dec.ndigits c + e - 1 <= Dec.Emax.
Proof.
  destruct (execute_unfold a b) as (Ha & Hs & Hm).
  rewrite Ha, Hs, Hm, Division_execute_cases.
  intros [H|[H|[H|H]]].
  - exact (DecInv.add_in_context _ _ _ H).
  - exact (DecInv.sub_in_context _ _ _ H).
  - exact (DecInv.mul_in_context _ _ _ H).
  - destruct (Dec.eq_zero b) as [[|]|]; try discriminate.
    exact (DecInv.truediv_in_context _ _ _ H).
Qed.

Lemma execute_result_in_context_third :
  Division.execute (Dec.Fin false 2 0) (Dec.Fin false 3 0) =
    Ok (Dec.Fin false 6666666666666666666666666667 (-28))
  /\ (6666666666666666666666666667 < Dec.pow10 Dec.prec)%N
  /\ Dec.Etiny <= -28.
Proof.
  assert (H : Division.execute (Dec.Fin false 2 0) (Dec.Fin false 3 0) =
              Ok (Dec.Fin false 6666666666666666666666666667 (-28)))
    by (vm_compute; reflexivity).
  destruct (execute_result_in_context _ _ _ _ _
              (or_intror (or_intror (or_intror H)))) as (H1 & H2 & _).
  split; [exact H|]. split; [exact H1 | exact H2].
Defined.

(** X2: on operands that are not NaN, addition and multiplication do not
    depend on the order of the operands, for the methods and for the
    standalone functions. *)
Theorem addition_multiplication_commute (a b : Dec.Decimal) :
  Dec.is_nan a = false -> Dec.is_nan b = false ->
  Addition.execute a b = Addition.execute b a
  /\ Multiplication.execute a b = Multiplication.execute b a
  /\ add a b = add b a
  /\ multiply a b = multiply b a.
Proof.
  intros Ha Hb.
  destruct (execute_unfold a b) as (-> & _ & ->).
  destruct (execute_unfold b a) as (-> & _ & ->).
  unfold add, multiply. rewrite !bind_ret_id.
  cbn [py_add py_mul Decimal_Number].
  rewrite (DecInv.add_comm a b Ha Hb), (DecInv.mul_comm a b Ha Hb).
  repeat split.
Qed.

Lemma addition_multiplication_commute_mixed :
  Addition.execute (Dec.Fin true 55 (-1)) (Dec.Inf false) =
  Addition.execute (Dec.Inf false) (Dec.Fin true 55 (-1))
  /\ Multiplication.execute (Dec.Fin true 55 (-1)) (Dec.Fin false 33 (-1)) =
     Multiplication.execute (Dec.Fin false 33 (-1)) (Dec.Fin true 55 (-1)).
Proof.
  destruct (addition_multiplication_commute
              (Dec.Fin true 55 (-1)) (Dec.Inf false) eq_refl eq_refl)
    as (H1 & _).
  destruct (addition_multiplication_commute
              (Dec.Fin true 55 (-1)) (Dec.Fin false 33 (-1)) eq_refl eq_refl)
    as (_ & H2 & _).
  split; [exact H1 | exact H2].
Defined.

(** X3: subtracting a finite number from itself gives a zero, and using
    that difference as a divisor is rejected: by [Division.execute] with
    the validation failure, by [divide] with its [ValueError]. *)
Theorem subtraction_self_is_rejected_divisor
    (s : bool) (c : N) (e : Z) (x : Dec.Decimal) :
  exists z,
    Subtraction.execute (Dec.Fin s c e) (Dec.Fin s c e) = Ok z
    /\ Dec.eq_zero z = Ok true
    /\ Division.execute x z =
         Raise (ValidationError "Division by zero is not allowed")
    /\ divide x z = Raise (ValueError "Cannot divide by zero!").
Proof.
  exists (Dec.Fin false 0 (Z.min (Z.max e Dec.Etiny) Dec.Emax)).
  split; [apply DecInv.sub_self|]. repeat split.
Qed.

(** X4: the product of a finite number and a zero is a zero, in either
    order; the product of an infinity and a zero raises
    [InvalidOperation], not a validation failure. *)
Theorem multiplication_by_zero
    (s1 s2 s3 : bool) (c1 : N) (e1 e2 : Z) :
  (exists z, Multiplication.execute (Dec.Fin s1 c1 e1) (Dec.Fin s2 0 e2) = Ok z
             /\ Dec.eq_zero z = Ok true)
  /\ (exists z, Multiplication.execute (Dec.Fin s2 0 e2) (Dec.Fin s1 c1 e1) = Ok z
                /\ Dec.eq_zero z = Ok true)
  /\ Multiplication.execute (Dec.Inf s3) (Dec.Fin s2 0 e2) =
       Raise (DecimalException InvalidOperation)
  /\ Multiplication.execute (Dec.Fin s2 0 e2) (Dec.Inf s3) =
       Raise (DecimalException InvalidOperation).
Proof.
  split; [|split].
  - eexists. split; [apply DecInv.mul_zero_r | reflexivity].
  - exists (Dec.Fin (xorb s1 s2) 0 (Z.min (Z.max (e1 + e2) Dec.Etiny) Dec.Emax)).
    split; [|reflexivity].
    change (Multiplication.execute (Dec.Fin s2 0 e2) (Dec.Fin s1 c1 e1))
      with (Dec.mul (Dec.Fin s2 0 e2) (Dec.Fin s1 c1 e1)).
    rewrite DecInv.mul_comm by reflexivity. apply DecInv.mul_zero_r.
  - split; reflexivity.
Qed.

Lemma value_zero (s : bool) (e : Z) (y : Q) :
  Dec.value (Dec.Fin s 0 e) = Some y -> (y == 0)%Q.
Proof. intros [= <-]. rewrite DecFacts.signed_zero. apply Qmult_0_l. Qed.

Lemma exact_same_value (r : result Dec.Decimal) (x x' : Q) :
  (x' == x)%Q ->
  (exists d v, r = Ok d /\ Dec.value d = Some v /\ (v == x')%Q) ->
  exists d v, r = Ok d /\ Dec.value d = Some v /\ (v == x)%Q.
Proof.
  intros Hx (d & v & Hr & Hv & Heq). exists d, v.
  repeat split; try assumption. now rewrite Heq.
Qed.

(** X5: for an operand that fits the context, adding or subtracting a
    zero, and multiplying or dividing by one, returns a decimal of the same
    value. *)
Theorem neutral_operands (a : Dec.Decimal) (x : Q) (s0 : bool) (e0 : Z) :
  Dec.in_context a -> Dec.value a = Some x ->
  (exists r v, Addition.execute a (Dec.Fin s0 0 e0) = Ok r
               /\ Dec.value r = Some v /\ (v == x)%Q)
  /\ (exists r v, Subtraction.execute a (Dec.Fin s0 0 e0) = Ok r
                  /\ Dec.value r = Some v /\ (v == x)%Q)
  /\ (exists r v, Multiplication.execute a (Dec.Fin false 1 0) = Ok r
                  /\ Dec.value r = Some v /\ (v == x)%Q)
  /\ (exists r v, Division.execute a (Dec.Fin false 1 0) = Ok r
                  /\ Dec.value r = Some v /\ (v == x)%Q).
Proof.
  intros Hctx Hx.
  pose proof (DecInv.in_context_representable a x Hctx Hx) as Hrep.
  pose proof (value_zero s0 e0 _ eq_refl) as Hz.
  set (y0 := (inject_Z (Dec.signed s0 0) * Dec.Qpow10 e0)%Q) in *.
  set (y1 := (inject_Z (Dec.signed false 1) * Dec.Qpow10 0)%Q).
  assert (H1 : (y1 == 1)%Q) by reflexivity.
  assert (Hadd : (x + y0 == x)%Q) by (rewrite Hz; ring).
  assert (Hsub : (x - y0 == x)%Q) by (rewrite Hz; ring).
  assert (Hmul : (x * y1 == x)%Q) by (rewrite H1; ring).
  assert (Hdiv : (x / y1 == x)%Q) by (rewrite H1; unfold Qdiv; change (/ 1)%Q with 1%Q; ring).
  repeat split.
  - apply (exact_same_value _ _ _ Hadd).
    apply DecFacts.add_exact; try easy.
    now apply (DecFacts.representable_proper x); [symmetry|].
  - apply (exact_same_value _ _ _ Hsub).
    apply DecFacts.sub_exact; try easy.
    now apply (DecFacts.representable_proper x); [symmetry|].
  - apply (exact_same_value _ _ _ Hmul).
    apply DecFacts.mul_exact; try easy.
    now apply (DecFacts.representable_proper x); [symmetry|].
  - apply (exact_same_value _ _ _ Hdiv).
    apply DecFacts.truediv_exact; try easy.
    now apply (DecFacts.representable_proper x); [symmetry|].
Qed.

Lemma neutral_operands_eighteen :
  Dec.in_context (Dec.Fin false 1815 (-2))
  /\ exists r v,
       Division.execute (Dec.Fin false 1815 (-2)) (Dec.Fin false 1 0) = Ok r
       /\ Dec.value r = Some v
       /\ (v == inject_Z 1815 * Dec.Qpow10 (-2))%Q.
Proof.
  assert (Hctx : Dec.in_context (Dec.Fin false 1815 (-2)))
    by (repeat split; vm_compute; congruence).
  split; [exact Hctx|].
  exact (proj2 (proj2 (proj2
    (neutral_operands (Dec.Fin false 1815 (-2)) _ false 0 Hctx eq_refl)))).
Defined.

(** X6: when the sum of two finite operands is representable and the
    first operand fits the context, subtracting the second operand from
    the sum gives back the value of the first. *)
Theorem addition_then_subtraction (a b : Dec.Decimal) (x y : Q) :
  Dec.in_context a ->
  Dec.value a = Some x -> Dec.value b = Some y ->
  Dec.representable (x + y) ->
  exists r r' v,
    Addition.execute a b = Ok r
    /\ Subtraction.execute r b = Ok r'
    /\ Dec.value r' = Some v /\ (v == x)%Q.
Proof.
  intros Hctx Hx Hy Hrep.
  destruct (DecFacts.add_exact a b x y Hx Hy Hrep) as (r & v & Hadd & Hv & Hvx).
  assert (Hback : (v - y == x)%Q) by (rewrite Hvx; ring).
  destruct (DecFacts.sub_exact r b v y Hv Hy) as (r' & v' & Hsub & Hv' & Hvx').
  { apply (DecFacts.representable_proper x); [now symmetry|].
    exact (DecInv.in_context_representable a x Hctx Hx). }
  exists r, r', v'. repeat split; try assumption. now rewrite Hvx'.
Qed.

Lemma addition_then_subtraction_decimals :
  exists r r' v,
    Addition.execute (Dec.Fin false 55 (-1)) (Dec.Fin false 33 (-1)) = Ok r
    /\ Subtraction.execute r (Dec.Fin false 33 (-1)) = Ok r'
    /\ Dec.value r' = Some v /\ (v == inject_Z 55 * Dec.Qpow10 (-1))%Q.
Proof.
  assert (Hctx : Dec.in_context (Dec.Fin false 55 (-1)))
    by (repeat split; vm_compute; congruence).
  assert (Hrep : Dec.representable
            (inject_Z 55 * Dec.Qpow10 (-1) + inject_Z 33 * Dec.Qpow10 (-1))).
  { exists (Dec.Fin false 88 (-1)), (inject_Z 88 * Dec.Qpow10 (-1))%Q.
    split; [|split; [reflexivity | vm_compute; reflexivity]].
    repeat split; vm_compute; congruence. }
  exact (addition_then_subtraction (Dec.Fin false 55 (-1))
           (Dec.Fin false 33 (-1)) _ _ Hctx eq_refl eq_refl Hrep).
Defined.

Lemma division_execute_exact_helper (a b : Dec.Decimal) (x y : Q) :
  Dec.value a = Some x -> Dec.value b = Some y ->
  ~ (y == 0)%Q -> Dec.representable (x / y) ->
  exists r v, Division.execute a b = Ok r
              /\ Dec.value r = Some v /\ (v == x / y)%Q.
Proof.
  intros Hx Hy Hnz Hrep. rewrite Division_execute_cases.
  destruct b as [s2 c2 e2| |]; try discriminate.
  cbn [Dec.eq_zero]. destruct (N.eqb_spec c2 0) as [->|Hc2].
  - exfalso. apply Hnz. now apply (value_zero s2 e2).
  - now apply DecFacts.truediv_exact.
Qed.

(** X7: when the quotient of two finite operands is representable and the
    dividend fits the context, multiplying the quotient by the divisor
    gives back the value of the dividend. *)
Theorem division_then_multiplication (a b : Dec.Decimal) (x y : Q) :
  Dec.in_context a ->
  Dec.value a = Some x -> Dec.value b = Some y ->
  ~ (y == 0)%Q ->
  Dec.representable (x / y) ->
  exists q r v,
    Division.execute a b = Ok q
    /\ Multiplication.execute q b = Ok r
    /\ Dec.value r = Some v /\ (v == x)%Q.
Proof.
  intros Hctx Hx Hy Hnz Hrep.
  destruct (division_execute_exact_helper a b x y Hx Hy Hnz Hrep)
    as (q & v & Hdiv & Hv & Hvx).
  assert (Hback : (v * y == x)%Q).
  { rewrite Hvx, Qmult_comm. now apply Qmult_div_r. }
  destruct (DecFacts.mul_exact q b v y Hv Hy) as (r & v' & Hmul & Hv' & Hvx').
  { apply (DecFacts.representable_proper x); [now symmetry|].
    exact (DecInv.in_context_representable a x Hctx Hx). }
  exists q, r, v'. repeat split; try assumption. now rewrite Hvx'.
Qed.

Lemma division_then_multiplication_decimals :
  exists q r v,
    Division.execute (Dec.Fin false 55 (-1)) (Dec.Fin false 2 0) = Ok q
    /\ Multiplication.execute q (Dec.Fin false 2 0) = Ok r
    /\ Dec.value r = Some v /\ (v == inject_Z 55 * Dec.Qpow10 (-1))%Q.
Proof.
  assert (Hctx : Dec.in_context (Dec.Fin false 55 (-1)))
    by (repeat split; vm_compute; congruence).
  assert (Hnz : ~ (inject_Z 2 * Dec.Qpow10 0 == 0)%Q)
    by (intros H; vm_compute in H; discriminate).
  assert (Hrep : Dec.representable
            (inject_Z 55 * Dec.Qpow10 (-1) / (inject_Z 2 * Dec.Qpow10 0))).
  { exists (Dec.Fin false 275 (-2)), (inject_Z 275 * Dec.Qpow10 (-2))%Q.
    split; [|split; [reflexivity | vm_compute; reflexivity]].
    repeat split; vm_compute; congruence. }
  exact (division_then_multiplication (Dec.Fin false 55 (-1))
           (Dec.Fin false 2 0) _ _ Hctx eq_refl eq_refl Hnz Hrep).
Defined.

Lemma divide_cases (a b : Dec.Decimal) :
  divide a b =
  match Dec.eq_zero b with
  | Ok true => Raise (ValueError "Cannot divide by zero!")
  | Ok false => Dec.truediv a b
  | Raise e => Raise e
  end.
Proof.
  unfold divide. cbn.
  destruct (Dec.eq_zero b) as [[|]|e]; [reflexivity| |reflexivity].
  apply bind_ret_id.
Qed.

Lemma eq_zero_raise (b : Dec.Decimal) (ex : exn) :
  Dec.eq_zero b = Raise ex -> ex = DecimalException InvalidOperation.
Proof. destruct b as [| |[]]; try discriminate. now intros [= <-]. Qed.

(** X8: the decimal signal [DivisionByZero] never leaves a division: a
    zero divisor is caught first, by [Division.execute] as the validation
    failure and by [divide] as its [ValueError]; the only other errors
    are the signals [InvalidOperation] and [Overflow]. *)
Theorem division_errors (a b : Dec.Decimal) (ex : exn) :
  (Division.execute a b = Raise ex ->
   (ex = ValidationError "Division by zero is not allowed"
    /\ Dec.eq_zero b = Ok true)
   \/ ex = DecimalException InvalidOperation
   \/ ex = DecimalException Overflow)
  /\ (divide a b = Raise ex ->
      (ex = ValueError "Cannot divide by zero!" /\ Dec.eq_zero b = Ok true)
      \/ ex = DecimalException InvalidOperation
      \/ ex = DecimalException Overflow).
Proof.
  rewrite Division_execute_cases, divide_cases.
  destruct (Dec.eq_zero b) as [[|]|e] eqn:Hz; split;
    try (intros [= <-]; left; now split);
    try (intros H; apply DecInv.truediv_raise in H as [[_ H]|H];
         [congruence | now right]);
    intros [= <-]; right; left; now apply (eq_zero_raise b).
Qed.

Lemma division_errors_examples :
  Division.execute (Dec.Inf false) (Dec.Inf true) =
    Raise (DecimalException InvalidOperation)
  /\ Division.execute (Dec.Fin false 1 999999) (Dec.Fin false 1 (-999999)) =
       Raise (DecimalException Overflow)
  /\ Dec.eq_zero (Dec.Fin true 0 5) = Ok true.
Proof.
  assert (H1 : Division.execute (Dec.Fin false 7 0) (Dec.Fin true 0 5) =
               Raise (ValidationError "Division by zero is not allowed"))
    by reflexivity.
  destruct (proj1 (division_errors _ _ _) H1) as [[_ Hz]|[H|H]];
    [|discriminate H|discriminate H].
  split; [reflexivity|]. split; [vm_compute; reflexivity | exact Hz].
Defined.

(** X9: the validation of [Division] looks at the divisor only and
    rejects exactly the zeros, of any sign and exponent.  Infinite and NaN
    divisors pass it: a finite dividend over an infinity gives the zero
    of the smallest exponent, and a quiet NaN divisor gives NaN. *)
Theorem division_validation_rejects_only_zeros (a b : Dec.Decimal) :
  (Division.validate_operands a b =
     Raise (ValidationError "Division by zero is not allowed")
   <-> exists s e, b = Dec.Fin s 0 e)
  /\ (forall a' : Dec.Decimal,
        Division.validate_operands a' b = Division.validate_operands a b)
  /\ (forall s s1 c1 e1, b = Dec.Inf s -> a = Dec.Fin s1 c1 e1 ->
        Division.execute a b = Ok (Dec.Fin (xorb s1 s) 0 Dec.Etiny))
  /\ (b = Dec.NaN false -> Dec.is_snan a = false ->
        Division.execute a b = Ok (Dec.NaN false)).
Proof.
  split; [|split; [|split]].
  - rewrite <- DecFacts.eq_zero_true.
    unfold Division.validate_operands, Operation.validate_operands. cbn.
    destruct (Dec.eq_zero b) as [[|]|e] eqn:Hz; split; try easy.
    intros [= ->]. now apply eq_zero_raise in Hz.
  - reflexivity.
  - intros s s1 c1 e1 -> ->. reflexivity.
  - intros -> Ha. rewrite Division_execute_cases. cbn.
    unfold Dec.truediv, Dec.check_nans. rewrite Ha.
    destruct a; reflexivity.
Qed.

Lemma division_validation_rejects_only_zeros_examples :
  Division.validate_operands (Dec.Fin false 5 0) (Dec.Fin true 0 3) =
    Raise (ValidationError "Division by zero is not allowed")
  /\ Division.execute (Dec.Fin true 5 0) (Dec.Inf false) =
       Ok (Dec.Fin true 0 (-1000026))
  /\ Division.execute (Dec.Fin true 5 0) (Dec.NaN false) = Ok (Dec.NaN false).
Proof.
  destruct (division_validation_rejects_only_zeros
              (Dec.Fin false 5 0) (Dec.Fin true 0 3)) as (Hz & _).
  destruct (division_validation_rejects_only_zeros
              (Dec.Fin true 5 0) (Dec.Inf false)) as (_ & _ & Hinf & _).
  destruct (division_validation_rejects_only_zeros
              (Dec.Fin true 5 0) (Dec.NaN false)) as (_ & _ & _ & Hnan).
  split; [apply Hz; now exists true, 3|].
  split; [exact (Hinf _ _ _ _ eq_refl eq_refl) | exact (Hnan eq_refl eq_refl)].
Defined.

(** ** The factory, further *)

Lemma run_register_state (name : string) (v : pyobj) (w : world) :
  snd (run (OperationFactory.register_operation name v) w) = w
  \/ (conforms v
      /\ snd (run (OperationFactory.register_operation name v) w) =
           {| _operations := <[lower name := v]> (_operations w);
              heap_next := heap_next w |}).
Proof.
  rewrite run_register. unfold conforms.
  destruct (issubclass v Operation_cls) as [[|]|e]; [right|left|left]; easy.
Qed.

Lemma run_register_conforms (name : string) (v : pyobj) (w : world) :
  conforms v ->
  run (OperationFactory.register_operation name v) w =
    (Ok tt, {| _operations := <[lower name := v]> (_operations w);
               heap_next := heap_next w |}).
Proof. intros H. rewrite run_register. now rewrite H. Qed.

Lemma step_keys_persist (w w' : world) (k : string) :
  step w w' -> is_Some (_operations w !! k) -> is_Some (_operations w' !! k).
Proof.
  intros [name v w0|name w0] Hk.
  - destruct (run_register_state name v w0) as [->|[_ ->]]; [exact Hk|].
    cbn [_operations]. rewrite lookup_insert. now case_decide.
  - now rewrite create_operations_unchanged.
Qed.

Lemma run_create_ok (name : string) (w : world) (v : pyobj) :
  fst (run (OperationFactory.create_operation name) w) = Ok v ->
  exists c, _operations w !! lower name = Some (PyClass c)
            /\ cls_abstractmethods c = []
            /\ v = PyObject {| obj_id := heap_next w; obj_class := c |}.
Proof.
  rewrite run_create. cbv zeta. unfold dict_get.
  destruct (_operations w !! lower name) as [[| | |c|]|]; cbn;
    try discriminate.
  - destruct (negb _); discriminate.
  - destruct (negb _); discriminate.
  - rewrite run_instantiate.
    destruct (cls_abstractmethods c) eqn:Habs; [|discriminate].
    cbv zeta. destruct (cls_init c); [|discriminate].
    intros [= <-]. now exists c.
Qed.

(** X10: in every reachable state, [create_operation] takes its
    unknown-operation exit, leaving the state as it is, exactly when the
    lowercased name is no key of the registry. *)
Theorem unknown_iff_unregistered (w : world) (name : string) :
  reachable w ->
  (run (OperationFactory.create_operation name) w =
     (Raise (ValueError ("Unknown operation: " +:+ name)), w)
   <-> _operations w !! lower name = None).
Proof.
  intros Hreach. split; [|apply run_create_none].
  destruct (_operations w !! lower name) as [v|] eqn:Hk; [|reflexivity].
  destruct (reachable_registry_ok w Hreach _ _ Hk) as [_ Hconf].
  destruct (conforms_class v Hconf) as (c & -> & _).
  rewrite (run_create_class name c w Hk), run_instantiate.
  destruct (cls_abstractmethods c); [|discriminate].
  cbv zeta. destruct (cls_init c); [discriminate|].
  intros [= _ Hw]. apply (f_equal heap_next) in Hw. cbn in Hw. lia.
Qed.

Lemma unknown_iff_unregistered_initial :
  run (OperationFactory.create_operation "Modulus") initial_world =
    (Raise (ValueError "Unknown operation: Modulus"), initial_world)
  /\ _operations initial_world !! lower "Modulus" = None.
Proof.
  assert (H : _operations initial_world !! lower "Modulus" = None)
    by (vm_compute; reflexivity).
  split; [|exact H].
  exact (proj2 (unknown_iff_unregistered initial_world "Modulus" (rtc_refl _ _)) H).
Defined.

(** X11: in every reachable state, what [create_operation] returns is an
    instance of the class registered under the lowercased name, and that
    class inherits from [Operation] and leaves no method abstract. *)
Theorem created_object_is_operation (w : world) (name : string) (v : pyobj) :
  reachable w ->
  fst (run (OperationFactory.create_operation name) w) = Ok v ->
  exists o,
    v = PyObject o
    /\ _operations w !! lower name = Some (PyClass (obj_class o))
    /\ implements_operation (obj_class o).
Proof.
  intros Hreach Hok.
  destruct (run_create_ok name w v Hok) as (c & Hk & Habs & ->).
  destruct (reachable_registry_ok w Hreach _ _ Hk) as [_ Hconf].
  destruct (conforms_class _ Hconf) as (c' & [= <-] & Hmro).
  eexists. split; [reflexivity|]. split; [exact Hk|]. now split.
Qed.

Lemma created_object_is_operation_subtract :
  exists o,
    fst (run (OperationFactory.create_operation "SUBTRACT") initial_world) =
      Ok (PyObject o)
    /\ obj_class o = Subtraction_cls
    /\ implements_operation (obj_class o).
Proof.
  assert (H : fst (run (OperationFactory.create_operation "SUBTRACT") initial_world)
              = Ok (PyObject {| obj_id := 0; obj_class := Subtraction_cls |}))
    by (vm_compute; reflexivity).
  destruct (created_object_is_operation initial_world "SUBTRACT" _
              (rtc_refl _ _) H) as (o & [= <-] & _ & Himpl).
  eexists. split; [exact H|]. split; [reflexivity | exact Himpl].
Defined.

(** X12: no call of a factory method removes a key: a name that is
    registered stays registered in every state that follows. *)
Theorem registered_keys_persist (w w' : world) (k : string) :
  rtc step w w' ->
  is_Some (_operations w !! k) ->
  is_Some (_operations w' !! k).
Proof.
  induction 1 as [|x y z Hxy _ IH]; [easy|].
  intros Hk. apply IH. exact (step_keys_persist x y k Hxy Hk).
Qed.

Lemma registered_keys_persist_divide :
  let w := snd (run (OperationFactory.register_operation "Divide"
                       (PyClass Modulus_cls)) initial_world) in
  is_Some (_operations w !! "add") /\ is_Some (_operations w !! "divide").
Proof.
  cbv zeta.
  assert (Hs : rtc step initial_world
    (snd (run (OperationFactory.register_operation "Divide"
                 (PyClass Modulus_cls)) initial_world)))
    by (apply rtc_once; constructor).
  split; apply (registered_keys_persist _ _ _ Hs); vm_compute; eauto.
Defined.

(** X13: a later registration under a case variant of the same name
    replaces the earlier one, also for a built-in name: the state is the
    one the later registration alone would give. *)
Theorem last_registration_wins
    (w : world) (n1 n2 : string) (v1 v2 : pyobj) :
  conforms v2 ->
  case_variant n2 n1 ->
  let w1 := snd (run (OperationFactory.register_operation n1 v1) w) in
  let w2 := snd (run (OperationFactory.register_operation n2 v2) w1) in
  w2 = snd (run (OperationFactory.register_operation n2 v2) w)
  /\ _operations w2 !! lower n1 = Some v2.
Proof.
  intros Hc Hv. cbv zeta. unfold case_variant in Hv.
  rewrite !(run_register_conforms n2 v2) by assumption. cbn [snd].
  destruct (run_register_state n1 v1 w) as [->|[_ ->]]; cbn [_operations heap_next].
  - split; [reflexivity|]. rewrite Hv. apply lookup_insert_eq.
  - rewrite Hv, insert_insert_eq. split; [reflexivity|]. apply lookup_insert_eq.
Qed.

Lemma last_registration_wins_add :
  let w1 := snd (run (OperationFactory.register_operation "add"
                        (PyClass Addition_cls)) initial_world) in
  let w2 := snd (run (OperationFactory.register_operation "ADD"
                        (PyClass Modulus_cls)) w1) in
  _operations w2 !! lower "add" = Some (PyClass Modulus_cls)
  /\ fst (run (OperationFactory.create_operation "add") w2) =
       Ok (PyObject {| obj_id := 0; obj_class := Modulus_cls |}).
Proof.
  assert (Hc : conforms (PyClass Modulus_cls)) by reflexivity.
  destruct (last_registration_wins initial_world "add" "ADD"
              (PyClass Addition_cls) (PyClass Modulus_cls) Hc eq_refl)
    as [_ H].
  cbv zeta. split; [exact H | vm_compute; reflexivity].
Defined.

Lemma create_fst_ext (name : string) (w1 w2 : world) :
  _operations w1 !! lower name = _operations w2 !! lower name ->
  heap_next w1 = heap_next w2 ->
  fst (run (OperationFactory.create_operation name) w1) =
  fst (run (OperationFactory.create_operation name) w2).
Proof.
  intros Hk Hh. rewrite !run_create. cbv zeta. unfold dict_get. rewrite Hk.
  destruct (truthy _); [|reflexivity].
  destruct (default PyNone _) as [| | |c|]; try reflexivity.
  cbn [call]. rewrite !run_instantiate.
  destruct (cls_abstractmethods c); [|reflexivity].
  cbv zeta. rewrite Hh. destruct (cls_init c); reflexivity.
Qed.

(** X14: for ASCII names, registering a name leaves every name that is no
    case variant of it alone: its entry, and what [create_operation]
    returns or raises for it, are the same before and after, whether the
    registration succeeded or not. *)
Theorem register_operation_frame
    (w : world) (name other : string) (v : pyobj) :
  is_ascii name = true -> is_ascii other = true ->
  ~ case_variant other name ->
  let w1 := snd (run (OperationFactory.register_operation name v) w) in
  _operations w1 !! lower other = _operations w !! lower other
  /\ heap_next w1 = heap_next w
  /\ fst (run (OperationFactory.create_operation other) w1) =
     fst (run (OperationFactory.create_operation other) w).
Proof.
  intros _ _ Hne. cbv zeta. unfold case_variant in Hne.
  assert (H : _operations (snd (run (OperationFactory.register_operation name v) w))
                !! lower other = _operations w !! lower other
              /\ heap_next (snd (run (OperationFactory.register_operation name v) w))
                 = heap_next w).
  { destruct (run_register_state name v w) as [->|[_ ->]]; [easy|].
    cbn [_operations heap_next]. split; [|reflexivity].
    apply lookup_insert_ne. congruence. }
  destruct H as [Hk Hh]. repeat split; try assumption.
  now apply create_fst_ext.
Qed.

Lemma register_operation_frame_mod :
  let w1 := snd (run (OperationFactory.register_operation "mod"
                        (PyClass Modulus_cls)) initial_world) in
  ~ case_variant "Multiply" "mod"
  /\ fst (run (OperationFactory.create_operation "Multiply") w1) =
     fst (run (OperationFactory.create_operation "Multiply") initial_world).
Proof.
  assert (Hne : ~ case_variant "Multiply" "mod") by (vm_compute; discriminate).
  split; [exact Hne|].
  exact (proj2 (proj2 (register_operation_frame initial_world "mod" "Multiply"
                         (PyClass Modulus_cls) eq_refl eq_refl Hne))).
Defined.

(** X16: registrations under ASCII names that are no case variants of
    each other can be made in either order: the resulting state is the
    same, whether each of them succeeds or not. *)
Theorem registrations_commute
    (w : world) (n1 n2 : string) (v1 v2 : pyobj) :
  is_ascii n1 = true -> is_ascii n2 = true ->
  ~ case_variant n1 n2 ->
  snd (run (OperationFactory.register_operation n2 v2)
         (snd (run (OperationFactory.register_operation n1 v1) w))) =
  snd (run (OperationFactory.register_operation n1 v1)
         (snd (run (OperationFactory.register_operation n2 v2) w))).
Proof.
  intros _ _ Hne. unfold case_variant in Hne. rewrite !run_register.
  destruct (issubclass v1 Operation_cls) as [[|]|e1];
    destruct (issubclass v2 Operation_cls) as [[|]|e2];
    cbn [fst snd _operations heap_next]; try reflexivity.
  f_equal. now apply insert_insert_ne.
Qed.

Lemma registrations_commute_two :
  ~ case_variant "mod" "shape"
  /\ snd (run (OperationFactory.register_operation "shape" (PyClass Shape_cls))
            (snd (run (OperationFactory.register_operation "mod"
                         (PyClass Modulus_cls)) initial_world))) =
     snd (run (OperationFactory.register_operation "mod" (PyClass Modulus_cls))
            (snd (run (OperationFactory.register_operation "shape"
                         (PyClass Shape_cls)) initial_world))).
Proof.
  assert (Hne : ~ case_variant "mod" "shape") by (vm_compute; discriminate).
  split; [exact Hne|].
  exact (registrations_commute initial_world "mod" "shape" _ _
           eq_refl eq_refl Hne).
Defined.

Lemma builtin_keys_present (w : world) :
  reachable w ->
  forall k, k ∈ ["add"; "subtract"; "multiply"; "divide"] ->
  is_Some (_operations w !! k).
Proof.
  unfold reachable. revert w.
  apply (rtc_ind_r
    (fun w => forall k, k ∈ ["add"; "subtract"; "multiply"; "divide"] ->
                        is_Some (_operations w !! k)) initial_world).
  - intros k Hk. repeat (apply elem_of_cons in Hk as [->|Hk]);
      [vm_compute; eauto ..|]. now apply elem_of_nil in Hk.
  - intros y z _ Hstep IH k Hk. exact (step_keys_persist y z k Hstep (IH k Hk)).
Qed.

(** X17: the four built-in names never become unknown: in every reachable
    state, each of them, in any casing, is bound to a class that inherits
    from [Operation] (the built-in one or a replacement), and
    [create_operation] does not take its unknown-operation exit. *)
Theorem builtin_names_stay_known (w : world) (k K : string) :
  reachable w ->
  k ∈ ["add"; "subtract"; "multiply"; "divide"] ->
  case_variant K k ->
  (exists c, _operations w !! lower K = Some (PyClass c)
             /\ cls_name Operation_cls ∈ cls_mro c)
  /\ run (OperationFactory.create_operation K) w <>
       (Raise (ValueError ("Unknown operation: " +:+ K)), w).
Proof.
  intros Hreach Hk HK.
  destruct (builtin_keys_present w Hreach k Hk) as [v Hv].
  destruct (reachable_registry_ok w Hreach k v Hv) as [Hlow Hconf].
  destruct (conforms_class v Hconf) as (c & -> & Hmro).
  assert (Hlook : _operations w !! lower K = Some (PyClass c))
    by (rewrite HK, Hlow; exact Hv).
  split; [now exists c|].
  rewrite (run_create_class K c w Hlook), run_instantiate.
  destruct (cls_abstractmethods c); [|discriminate].
  cbv zeta. destruct (cls_init c); [discriminate|].
  intros [= _ Hw]. apply (f_equal heap_next) in Hw. cbn in Hw. lia.
Qed.

Lemma builtin_names_stay_known_after_replacement :
  let w := snd (run (OperationFactory.register_operation "Divide"
                       (PyClass Shape_cls)) initial_world) in
  exists c, _operations w !! lower "DIVIDE" = Some (PyClass c)
            /\ cls_name Operation_cls ∈ cls_mro c.
Proof.
  cbv zeta.
  assert (Hr : reachable (snd (run (OperationFactory.register_operation "Divide"
                                      (PyClass Shape_cls)) initial_world)))
    by (apply reachable_register, rtc_refl).
  assert (Hk : "divide" ∈ ["add"; "subtract"; "multiply"; "divide"])
    by (repeat constructor).
  exact (proj1 (builtin_names_stay_known _ "divide" "DIVIDE" Hr Hk eq_refl)).
Defined.

Lemma run_create_builtin (w : world) (K name : string) :
  _operations w !! lower K = Some (PyClass (concrete_operation name)) ->
  fst (run (OperationFactory.create_operation K) w) =
    Ok (PyObject {| obj_id := heap_next w;
                    obj_class := concrete_operation name |}).
Proof.
  intros Hk.
  now rewrite (run_create_class K _ w Hk), instantiate_concrete.
Qed.

(** X18: while a built-in name is bound to its built-in class, as in the
    initial state, the object that [create_operation] returns for it, in
    any casing, executes as the class does: Addition, Subtraction and
    Multiplication like [add], [subtract] and [multiply], and Division
    with its validation failure on a zero divisor. *)
Theorem created_builtin_executes {T} `{Number T}
    (w : world) (K : string) (a b : T) :
  (_operations w !! lower K = Some (PyClass Addition_cls) ->
   exists o f, fst (run (OperationFactory.create_operation K) w) = Ok (PyObject o)
               /\ execute_of o = Some f /\ f a b = add a b)
  /\ (_operations w !! lower K = Some (PyClass Subtraction_cls) ->
      exists o f, fst (run (OperationFactory.create_operation K) w) = Ok (PyObject o)
                  /\ execute_of o = Some f /\ f a b = subtract a b)
  /\ (_operations w !! lower K = Some (PyClass Multiplication_cls) ->
      exists o f, fst (run (OperationFactory.create_operation K) w) = Ok (PyObject o)
                  /\ execute_of o = Some f /\ f a b = multiply a b)
  /\ (_operations w !! lower K = Some (PyClass Division_cls) ->
      exists o f, fst (run (OperationFactory.create_operation K) w) = Ok (PyObject o)
                  /\ execute_of o = Some f
                  /\ f a b = Division.execute a b
                  /\ (py_eq_zero b = Ok true ->
                      f a b = Raise (ValidationError
                                       "Division by zero is not allowed"))).
Proof.
  repeat split; intros Hk; eexists _, _;
    (split; [exact (run_create_builtin w K _ Hk)|]);
    (split; [reflexivity|]).
  - unfold add, Addition.execute, Operation.validate_operands.
    now rewrite bind_ret_id.
  - unfold subtract, Subtraction.execute, Operation.validate_operands.
    now rewrite bind_ret_id.
  - unfold multiply, Multiplication.execute, Operation.validate_operands.
    now rewrite bind_ret_id.
  - split; [reflexivity|]. intros Hz.
    unfold Division.execute, Division.validate_operands,
      Operation.validate_operands. cbn. now rewrite Hz.
Qed.

Lemma created_builtin_executes_divide :
  exists o f,
    fst (run (OperationFactory.create_operation "DIVIDE") initial_world) =
      Ok (PyObject o)
    /\ execute_of o = Some f
    /\ f (Dec.Fin false 5 0) (Dec.Fin false 0 0) =
         Raise (ValidationError "Division by zero is not allowed").
Proof.
  assert (Hk : _operations initial_world !! lower "DIVIDE" =
               Some (PyClass Division_cls)) by (vm_compute; reflexivity).
  destruct (created_builtin_executes initial_world "DIVIDE"
              (Dec.Fin false 5 0) (Dec.Fin false 0 0)) as (_ & _ & _ & Hdiv).
  destruct (Hdiv Hk) as (o & f & Ho & Hf & _ & Hz).
  exists o, f. split; [exact Ho|]. split; [exact Hf|]. exact (Hz eq_refl).
Defined.

(** ** Quotients of equal operands *)

(** X19: dividing a finite non-zero number by itself returns a decimal of
    value one, whatever its digits and exponent; dividing a zero by a
    finite non-zero number returns a zero. *)
Theorem division_by_itself (s : bool) (c : N) (e : Z) (s0 : bool) (e0 : Z) :
  c <> 0%N ->
  (exists r v, Division.execute (Dec.Fin s c e) (Dec.Fin s c e) = Ok r
               /\ Dec.value r = Some v /\ (v == 1)%Q)
  /\ (exists z, Division.execute (Dec.Fin s0 0 e0) (Dec.Fin s c e) = Ok z
                /\ Dec.eq_zero z = Ok true).
Proof.
  intros Hc. split.
  - set (x := (inject_Z (Dec.signed s c) * Dec.Qpow10 e)%Q).
    assert (Hx : ~ (x == 0)%Q).
    { unfold x. intros H0.
      apply Qmult_integral in H0 as [H0|H0].
      - unfold Qeq in H0. cbn in H0.
        apply Hc. unfold Dec.signed in H0. destruct s; lia.
      - now apply DecFacts.Qpow10_nonzero in H0. }
    assert (Hone : (x / x == 1)%Q) by (now apply Qmult_inv_r).
    apply (exact_same_value _ _ _ Hone).
    apply division_execute_exact_helper; try easy.
    apply (DecFacts.representable_proper 1); [now symmetry|].
    exists (Dec.Fin false 1 0), (inject_Z 1 * Dec.Qpow10 0)%Q.
    split; [|split; [reflexivity | vm_compute; reflexivity]].
    repeat split; vm_compute; congruence.
  - rewrite Division_execute_cases. cbn [Dec.eq_zero].
    destruct (N.eqb_spec c 0) as [|_]; [contradiction|].
    unfold Dec.truediv. cbn.
    destruct (N.eqb_spec c 0) as [|_]; [contradiction|].
    eexists. split; reflexivity.
Qed.

Lemma division_by_itself_third :
  exists r v,
    Division.execute (Dec.Fin true 3333 (-4)) (Dec.Fin true 3333 (-4)) = Ok r
    /\ Dec.value r = Some v /\ (v == 1)%Q.
Proof.
  assert (Hc : 3333%N <> 0%N) by discriminate.
  exact (proj1 (division_by_itself true 3333 (-4) false 0 Hc)).
Defined.
